(** * Card agent: planning / dispatch loop of [card_agent_graph.py]

    A shallow embedding of the agents, the tools and the workflow graph of
    the card-service agent, and the properties of its control loop.

    Python values are an inductive type, dictionaries are finite maps with
    string keys, exceptions are an error monad.  A Python [str] is kept as
    the string of its UTF-8 bytes: equality and concatenation are those of
    the byte strings, length and slicing count code points.

    What lies outside the repository is a parameter: [json.loads] and [int]
    on a [str] are functions that the development is generic in, and the
    language model is a gateway that maps a prompt to a reply text or to an
    exception, and may answer differently each time it is asked.  The graph
    is run the way the graph library runs it, in supersteps.

    The gateway class [BedrockLLM] and the script of the application are
    embedded in the same way; there the call to the model, [json.dumps] and
    the limit that the graph library puts on the supersteps are parameters. *)

From Stdlib Require Import ZArith String Ascii List SpecFloat Lia.
From stdpp Require Import gmap strings list fin_maps.

Set Warnings "-register-all,-clear-no-such-hyp".
Open Scope Z_scope.

(** ** Python values and exceptions *)

Inductive pyval :=
  | PNone
  | PBool (b : bool)
  | PInt (n : Z)
  | PFloat (f : spec_float)
  | PStr (s : string)
  | PList (l : list pyval)
  | PDict (d : gmap string pyval).

(** The exceptions that the modelled code can meet.  All of them are
    subclasses of [Exception]; [GatewayError] stands for whatever the remote
    call raises. *)
Inductive exn :=
  | JSONDecodeError
  | AttributeError
  | TypeError
  | ValueError
  | OverflowError
  | KeyError
  | IndexError
  | GatewayError
  | InvalidUpdateError
  | GraphRecursionError.

Inductive result (A : Type) :=
  | Ok (a : A)
  | Raise (e : exn).
Arguments Ok {A} a.
Arguments Raise {A} e.

Definition result_bind {A B} (f : A → result B) (m : result A) : result B :=
  match m with
  | Ok a => f a
  | Raise e => Raise e
  end.

#[global] Instance result_mret : MRet result := @Ok.
#[global] Instance result_mbind : MBind result := @result_bind.

Definition result_map {A B} (f : A → B) (m : result A) : result B :=
  match m with
  | Ok a => Ok (f a)
  | Raise e => Raise e
  end.

#[global] Instance result_fmap : FMap result := @result_map.

(** [try: body except Exception: return handler] *)
Definition try_except {A} (body : result A) (handler : A) : A :=
  match body with
  | Ok a => a
  | Raise _ => handler
  end.

(** ** Operations of the language that the code uses *)

(** [d.get(key, default)] on a dictionary *)
Definition dict_get (d : gmap string pyval) (key : string) (default : pyval) : pyval :=
  match d !! key with
  | Some v => v
  | None => default
  end.

(** [v.get(key, default)] on an arbitrary value: only a dict has [get] *)
Definition py_get (v : pyval) (key : string) (default : pyval) : result pyval :=
  match v with
  | PDict d => Ok (dict_get d key default)
  | _ => Raise AttributeError
  end.

(** [v == "literal"]: only a [str] equals a [str] *)
Definition py_eq_str (v : pyval) (lit : string) : bool :=
  match v with
  | PStr s => String.eqb s lit
  | _ => false
  end.

(** [v in (lit1, lit2, ...)] *)
Definition py_in_strs (v : pyval) (lits : list string) : bool :=
  existsb (py_eq_str v) lits.

(** truth value of [v] in a condition *)
Definition py_truthy (v : pyval) : bool :=
  match v with
  | PNone => false
  | PBool b => b
  | PInt n => negb (n =? 0)
  | PFloat (S754_zero _) => false
  | PFloat _ => true
  | PStr EmptyString => false
  | PStr _ => true
  | PList [] => false
  | PList _ => true
  | PDict d => negb (bool_decide (size d = 0%nat))
  end.

(** [v + "literal"] *)
Definition py_add_str (v : pyval) (lit : string) : result string :=
  match v with
  | PStr s => Ok (String.append s lit)
  | _ => Raise TypeError
  end.

(** A byte that continues a code point in UTF-8 ([10xxxxxx]). *)
Definition is_continuation (c : ascii) : bool :=
  let n := N_of_ascii c in ((128 <=? n) && (n <? 192))%N.


(** [s[:n]]: the first [n] code points *)
Fixpoint py_prefix (n : nat) (s : string) : string :=
  match s with
  | EmptyString => EmptyString
  | String c r =>
      if is_continuation c then String c (py_prefix n r)
      else match n with
           | O => EmptyString
           | S n' => String c (py_prefix n' r)
           end
  end.

(** [int(f)] for a float: truncation towards zero *)
Definition float_trunc (f : spec_float) : result Z :=
  match f with
  | S754_zero _ => Ok 0
  | S754_infinity _ => Raise OverflowError
  | S754_nan => Raise ValueError
  | S754_finite s m e =>
      let a := Z.shiftl (Z.pos m) e in
      Ok (if s then - a else a)
  end.

(** *** [str.format]

    The template is read from left to right.  Text is copied, with [{{] and
    [}}] for the two braces; a single [{] opens a replacement field, made of
    a field name, an optional conversion after [!] and an optional format
    specification after [:], in which braces nest.  The head of the field
    name, up to the first [.] or [[], names the argument: a number or nothing
    for a positional argument, anything else for a keyword argument.  The
    agents pass keyword arguments only.  What a field shows once its argument
    is found, the accessors, the conversion and the specification applied,
    is left to [render]. *)

Definition is_digit (c : ascii) : bool :=
  let n := N_of_ascii c in ((48 <=? n) && (n <=? 57))%N.

Fixpoint all_digits (s : string) : bool :=
  match s with
  | EmptyString => true
  | String c r => is_digit c && all_digits r
  end.

(** the head of a field name and the accessors that follow it *)
Fixpoint split_field_name (s : string) : string * string :=
  match s with
  | EmptyString => (EmptyString, EmptyString)
  | String c r =>
      if Ascii.eqb c "." || Ascii.eqb c "[" then (EmptyString, s)
      else let '(head, accessors) := split_field_name r in (String c head, accessors)
  end.

Fixpoint lookup_keyword (key : string) (kwargs : list (string * pyval)) : option pyval :=
  match kwargs with
  | [] => None
  | (k, v) :: rest => if String.eqb k key then Some v else lookup_keyword key rest
  end.

Definition snoc (s : string) (c : ascii) : string := s +:+ String c EmptyString.

(** where the reader is: in the text, in a field name, inside the brackets
    of a field name, after [!], after the conversion character, or in the
    format specification at some depth of braces *)
Inductive format_mode :=
  | Text
  | Name (name : string)
  | NameIndex (name : string)
  | Conv (name : string)
  | ConvEnd (name : string) (conv : ascii)
  | Spec (name : string) (conv : option ascii) (spec : string) (depth : nat).

Section format.

Variable render :
  pyval → string → option ascii → string → list (string * pyval) → result string.
Variable kwargs : list (string * pyval).

Definition format_field (name : string) (conv : option ascii) (spec : string) : result string :=
  let '(head, accessors) := split_field_name name in
  if all_digits head then Raise IndexError
  else match lookup_keyword head kwargs with
       | None => Raise KeyError
       | Some v => render v accessors conv spec kwargs
       end.

Fixpoint format_from (m : format_mode) (s : string) : result string :=
  match m, s with
  | Text, EmptyString => Ok EmptyString
  | Text, String c rest =>
      if Ascii.eqb c "{" then
        match rest with
        | EmptyString => Raise ValueError
        | String c' rest' =>
            if Ascii.eqb c' "{" then String "{" <$> format_from Text rest'
            else format_from (Name EmptyString) rest
        end
      else if Ascii.eqb c "}" then
        match rest with
        | EmptyString => Raise ValueError
        | String c' rest' =>
            if Ascii.eqb c' "}" then String "}" <$> format_from Text rest'
            else Raise ValueError
        end
      else String c <$> format_from Text rest
  | _, EmptyString => Raise ValueError
  | Name name, String c rest =>
      if Ascii.eqb c "{" then Raise ValueError
      else if Ascii.eqb c "[" then format_from (NameIndex (snoc name c)) rest
      else if Ascii.eqb c "}" then
        field ← format_field name None EmptyString;
        String.append field <$> format_from Text rest
      else if Ascii.eqb c ":" then format_from (Spec name None EmptyString 0) rest
      else if Ascii.eqb c "!" then format_from (Conv name) rest
      else format_from (Name (snoc name c)) rest
  | NameIndex name, String c rest =>
      if Ascii.eqb c "]" then format_from (Name (snoc name c)) rest
      else format_from (NameIndex (snoc name c)) rest
  | Conv name, String c rest => format_from (ConvEnd name c) rest
  | ConvEnd name conv, String c rest =>
      if Ascii.eqb c "}" then
        field ← format_field name (Some conv) EmptyString;
        String.append field <$> format_from Text rest
      else if Ascii.eqb c ":" then format_from (Spec name (Some conv) EmptyString 0) rest
      else Raise ValueError
  | Spec name conv spec depth, String c rest =>
      if Ascii.eqb c "{" then format_from (Spec name conv (snoc spec c) (S depth)) rest
      else if Ascii.eqb c "}" then
        match depth with
        | O =>
            field ← format_field name conv spec;
            String.append field <$> format_from Text rest
        | S depth' => format_from (Spec name conv (snoc spec c) depth') rest
        end
      else format_from (Spec name conv (snoc spec c) depth) rest
  end.

(** [template.format(k=v, ...)] *)
Definition str_format (template : string) : result string := format_from Text template.

End format.

(** *** prompts.py *)

Definition newline : string := String (ascii_of_nat 10) EmptyString.

Definition dquote : string := String (ascii_of_nat 34) EmptyString.

(** A text in which [~] stands for the double quote. *)
Fixpoint with_quotes (s : string) : string :=
  match s with
  | EmptyString => EmptyString
  | String c r => (if Ascii.eqb c "~" then dquote else String c EmptyString) +:+ with_quotes r
  end.

(** the two templates, after [strip()], line by line *)
Definition PLANNER_PROMPT_text : string :=
  with_quotes (String.concat newline
    [
     "You are an autonomous planner for a card-service agent. Think step-by-step.";
     "    You have tools: [~validate~, ~replace~, ~cancel~, ~finish~].";
     "    Goal: correctly fulfill the user's request while ensuring ownership is valid before destructive actions.";
     "";
     "    State snapshot:";
     "    - last_user_message: {user_input}";
     "    - validated: {validated}";
     "";
     "    Rules:";
     "    - If intent seems to be card replacement, plan to `validate` (if not yet validated), then `replace`.";
     "    - If intent seems to be card cancellation, plan to `validate` (if not yet validated), then `cancel`.";
     "    - If unclear, respond with a short clarification and then `finish`.";
     "    - NEVER ask the human for confirmation (run fully autonomously). If risk is high and unclear, return a safe clarification with `finish`.";
     "";
     "    Output ONLY strict JSON:";
     "    {";
     "      ~next_action~: ~validate~ | ~replace~ | ~cancel~ | ~finish~,";
     "      ~intent~: ~replace~ | ~cancel~ | ~unknown~,";
     "      ~assistant_message~: ~what you would tell the user (concise)~,";
     "      ~reason~: ~why you chose this next_action~";
     "    }" ]).

Definition INTENT_ONLY_PROMPT_text : string :=
  with_quotes (String.concat newline
    [
     "Classify the user's message for card services. Output ONLY JSON:";
     "    {~intent~: ~replace~ | ~cancel~ | ~unknown~, ~reason~: ~short~}";
     "    Message: {user_input}" ]).

Section Agent.

(** [json.loads]: [None] when it raises *)
Variable json_loads : string → option pyval.
(** [int(s)] on a [str]: [None] when it raises [ValueError] *)
Variable int_of_str : string → option Z.

Definition loads (text : string) : result pyval :=
  match json_loads text with
  | Some v => Ok v
  | None => Raise JSONDecodeError
  end.

(** [int(v)] *)
Definition py_int (v : pyval) : result Z :=
  match v with
  | PBool b => Ok (if b then 1 else 0)
  | PInt n => Ok n
  | PFloat f => float_trunc f
  | PStr s => match int_of_str s with
              | Some n => Ok n
              | None => Raise ValueError
              end
  | PNone | PList _ | PDict _ => Raise TypeError
  end.

(** *** agents.py *)

(** The two prompt templates.  A call [llm.generate(T.format(k=v, ...))] is
    evaluated before the [try] of the agent that makes it, so its outcome,
    the reply text or the exception raised on the way, is what the gateway
    gives back. *)
Inductive template := PLANNER_PROMPT | INTENT_ONLY_PROMPT.

Record prompt := Prompt { prompt_template : template; prompt_kwargs : list (string * pyval) }.

Definition gateway := prompt → result string.

Definition template_text (t : template) : string :=
  match t with
  | PLANNER_PROMPT => PLANNER_PROMPT_text
  | INTENT_ONLY_PROMPT => INTENT_ONLY_PROMPT_text
  end.

(** The gateway with the templates of prompts.py: the prompt is rendered
    with [str.format] and the text is sent to the model, [generate]. *)
Definition rendering_gateway
    (render : pyval → string → option ascii → string → list (string * pyval) → result string)
    (generate : string → result string) : gateway :=
  λ p,
    prompt_text ← str_format render (prompt_kwargs p) (template_text (prompt_template p));
    generate prompt_text.

(** [INTENT_ONLY_PROMPT.format(user_input=user_input)] *)
Definition intent_prompt (user_input : pyval) : prompt :=
  Prompt INTENT_ONLY_PROMPT [("user_input", user_input)].

(** [PLANNER_PROMPT.format(user_input=..., validated=...)] *)
Definition planner_prompt (state : gmap string pyval) : prompt :=
  Prompt PLANNER_PROMPT
    [("user_input", dict_get state "user_input" (PStr ""));
     ("validated", dict_get state "validated" (PBool false))].

Definition intent_agent (llm : gateway) (user_input : pyval) : result (gmap string pyval) :=
  text ← llm (intent_prompt user_input);
  Ok (try_except
        (parsed ← loads text;
         intent ← py_get parsed "intent" (PStr "unknown");
         intent_reason ← py_get parsed "reason" (PStr "");
         Ok ({[ "intent" := intent; "intent_reason" := intent_reason ]} : gmap string pyval))
        {[ "intent" := PStr "unknown"; "intent_reason" := PStr "parse_error" ]}).

Definition planner_agent (llm : gateway) (state : gmap string pyval) : result (gmap string pyval) :=
  text ← llm (planner_prompt state);
  Ok (try_except
        (plan ← loads text;
         next_action ← py_get plan "next_action" (PStr "finish");
         assistant_message ← py_get plan "assistant_message" (PStr "");
         intent ← py_get plan "intent" (dict_get state "intent" (PStr "unknown"));
         reason ← py_get plan "reason" (PStr "");
         Ok ({[ "next_action" := next_action;
                "assistant_message" := assistant_message;
                "intent" := intent;
                "plan_reason" := reason ]} : gmap string pyval))
        {[ "next_action" := PStr "finish";
           "assistant_message" := PStr "I'm sorry, I couldn't process that.";
           "plan_reason" := PStr "parse_error" ]}).

(** *** tools.py *)

Definition validate_ownership_tool (state : gmap string pyval) : gmap string pyval :=
  {[ "validated" := PBool true; "validation_reason" := PStr "Mock validation passed." ]}.

Definition replace_card_tool (state : gmap string pyval) : gmap string pyval :=
  {[ "result" := PStr "âœ… Replacement completed. A new card will arrive in 5â€“7 business days." ]}.

Definition cancel_card_tool (state : gmap string pyval) : gmap string pyval :=
  {[ "result" := PStr "ðŸ›‘ Cancellation completed. Your card is now inactive." ]}.

(** *** graph.py: the nodes of [build_graph] *)

Section build_graph.

Variable max_steps : Z.

Definition classify_node (llm : gateway) (state : gmap string pyval) : result (gmap string pyval) :=
  intent_agent llm (dict_get state "user_input" (PStr "")).

Definition guard_note : string := " | Guarded: validating before action".

Definition planner_node (llm : gateway) (state : gmap string pyval) : result (gmap string pyval) :=
  out ← planner_agent llm state;
  if py_in_strs (dict_get out "next_action" PNone) ["replace"; "cancel"]
     && negb (py_truthy (dict_get state "validated" (PBool false)))
  then
    let out := <[ "next_action" := PStr "validate" ]> out in
    noted ← py_add_str (dict_get out "plan_reason" (PStr "")) guard_note;
    Ok (<[ "plan_reason" := PStr (py_prefix 500 noted) ]> out)
  else Ok out.

Definition tool_node (state : gmap string pyval) : gmap string pyval :=
  let action := dict_get state "next_action" (PStr "finish") in
  if py_eq_str action "validate" then validate_ownership_tool state
  else if py_eq_str action "replace" then replace_card_tool state
  else if py_eq_str action "cancel" then cancel_card_tool state
  else ∅.

Definition step_node (state : gmap string pyval) : result (gmap string pyval) :=
  n ← py_int (dict_get state "step_count" (PInt 0));
  Ok {[ "step_count" := PInt (n + 1) ]}.

(** *** graph.py: the wiring *)

Inductive node := classify | planner | tool | step.

#[global] Instance node_eq_dec : EqDecision node.
Proof. solve_decision. Defined.

(** [END] is the absence of a next node. *)
Definition END : option node := None.

Definition route_after_planner (state : gmap string pyval) : result (option node) :=
  if py_eq_str (dict_get state "next_action" PNone) "finish" then Ok END
  else Ok (Some tool).

Definition route_after_tool (state : gmap string pyval) : result (option node) :=
  if py_truthy (dict_get state "result" PNone) then Ok END
  else
    n ← py_int (dict_get state "step_count" (PInt 0));
    if max_steps <=? n then Ok END else Ok (Some planner).

Definition node_fn (llm : gateway) (n : node) : gmap string pyval → result (gmap string pyval) :=
  match n with
  | classify => classify_node llm
  | planner => planner_node llm
  | tool => λ state, Ok (tool_node state)
  | step => step_node
  end.

Definition entry_point : node := classify.

(** [add_edge] *)
Definition edges : list (node * node) :=
  [(classify, planner); (tool, step); (step, planner)].

(** [add_conditional_edges] *)
Definition branches (n : node) : option (gmap string pyval → result (option node)) :=
  match n with
  | planner => Some route_after_planner
  | tool => Some route_after_tool
  | _ => None
  end.

(** *** The compiled graph

    The graph runs in supersteps.  Every node that was triggered in the
    previous superstep runs once, on the values left by that superstep; a
    node triggers the targets of its edges, and the target that its
    conditional edge returns on the values with the node's own update
    applied.  The updates of a superstep are merged into the values; two
    updates of one key in a superstep are an error.  Before every superstep
    the limit is tested first, and then whether a node is triggered: the
    run fails when [recursion_limit] supersteps are done, and ends when no
    node is triggered, so that a run of [n] supersteps returns from the
    limit [n + 1] on. *)

Record task := Task { writes : gmap string pyval; triggers : list node }.

Definition run_task (llm : gateway) (state : gmap string pyval) (n : node) : result task :=
  w ← node_fn llm n state;
  conditional ← match branches n with
                | None => Ok []
                | Some path => dest ← path (w ∪ state); Ok (option_list dest)
                end;
  Ok (Task w ((filter (λ e, e.1 = n) edges).*2 ++ conditional)).

Fixpoint merge_writes (ws : list (gmap string pyval)) : result (gmap string pyval) :=
  match ws with
  | [] => Ok ∅
  | w :: rest =>
      acc ← merge_writes rest;
      if decide (w ##ₘ acc) then Ok (w ∪ acc) else Raise InvalidUpdateError
  end.

Definition all_nodes : list node := [classify; planner; tool; step].

(** the nodes of a superstep, each once *)
Definition scheduled (triggered : list node) : list node :=
  filter (λ n, n ∈ triggered) all_nodes.

Record config := Config { values : gmap string pyval; active : list node }.

Definition superstep (llm : gateway) (c : config) : result config :=
  tasks ← mapM (run_task llm (values c)) (active c);
  w ← merge_writes (writes <$> tasks);
  Ok (Config (w ∪ values c) (scheduled (tasks ≫= triggers))).

(** [n] supersteps from superstep number [k]; the gateway may answer
    differently at every superstep *)
Fixpoint supersteps (gw : nat → gateway) (n k : nat) (c : config) : result config :=
  match n with
  | O => Ok c
  | S n' => c' ← superstep (gw k) c; supersteps gw n' (S k) c'
  end.

Fixpoint run_loop (gw : nat → gateway) (recursion_limit k : nat) (c : config)
    : result (gmap string pyval) :=
  match recursion_limit with
  | O => Raise GraphRecursionError
  | S limit =>
      match active c with
      | [] => Ok (values c)
      | _ :: _ => c' ← superstep (gw k) c; run_loop gw limit (S k) c'
      end
  end.

Definition start (input : gmap string pyval) : config :=
  Config input [entry_point].

(** [graph.invoke(input)] *)
Definition invoke (gw : nat → gateway) (recursion_limit : nat) (input : gmap string pyval)
    : result (gmap string pyval) :=
  run_loop gw recursion_limit 0 (start input).

End build_graph.

End Agent.

(** ** The gateway and the application *)

(** *** [str.strip]

    Without an argument [strip] removes the white space at both ends.  In
    UTF-8 a white space character is one byte (tab to carriage return, the
    four separators and the space), two bytes (next line, no-break space) or
    three (the ogham space, the spaces and separators of the general
    punctuation, the ideographic space). *)

Definition is_byte (n : N) (c : ascii) : bool := (N_of_ascii c =? n)%N.

Definition in_range (lo hi : N) (c : ascii) : bool :=
  let n := N_of_ascii c in ((lo <=? n) && (n <=? hi))%N.

(** what follows the white space character at the head of [s], if there is one *)
Definition space_head (s : string) : option string :=
  match s with
  | String a r1 =>
      if in_range 9 13 a || in_range 28 32 a then Some r1
      else match r1 with
           | String b r2 =>
               if is_byte 194 a && (is_byte 133 b || is_byte 160 b) then Some r2
               else match r2 with
                    | String c r3 =>
                        if (is_byte 225 a && is_byte 154 b && is_byte 128 c)
                           || (is_byte 226 a && is_byte 128 b
                               && (in_range 128 138 c || in_range 168 169 c || is_byte 175 c))
                           || (is_byte 226 a && is_byte 129 b && is_byte 159 c)
                           || (is_byte 227 a && is_byte 128 b && is_byte 128 c)
                        then Some r3
                        else None
                    | EmptyString => None
                    end
           | EmptyString => None
           end
  | EmptyString => None
  end.

Fixpoint lstrip_from (fuel : nat) (s : string) : string :=
  match fuel with
  | O => s
  | S fuel' => match space_head s with
               | Some r => lstrip_from fuel' r
               | None => s
               end
  end.

(** [s.lstrip()] *)
Definition py_lstrip (s : string) : string := lstrip_from (String.length s) s.

(** a text of white space only *)
Definition is_blank (s : string) : bool := String.eqb (py_lstrip s) "".

(** [s.rstrip()] *)
Fixpoint py_rstrip (s : string) : string :=
  match s with
  | EmptyString => EmptyString
  | String a r => if is_blank s then EmptyString else String a (py_rstrip r)
  end.

(** [s.strip()] *)
Definition py_strip (s : string) : string := py_rstrip (py_lstrip s).

(** [v.strip()] on an arbitrary value: only a [str] has [strip] *)
Definition py_strip_method (v : pyval) : result string :=
  match v with
  | PStr s => Ok (py_strip s)
  | _ => Raise AttributeError
  end.

(** [v[0]] *)
Definition py_first (v : pyval) : result pyval :=
  match v with
  | PList [] => Raise IndexError
  | PList (x :: _) => Ok x
  | PStr EmptyString => Raise IndexError
  | PStr s => Ok (PStr (py_prefix 1 s))
  | PDict _ => Raise KeyError
  | PNone | PBool _ | PInt _ | PFloat _ => Raise TypeError
  end.

(** *** agents.py: [BedrockLLM] *)

(** the keyword arguments of [client.invoke_model] *)
Record invocation := Invocation {
  modelId : string;
  body : string;
  accept : string;
  contentType : string
}.

Section BedrockLLM.

Variable json_loads : string → option pyval.
(** [json.dumps] *)
Variable json_dumps : pyval → string.
(** [client.invoke_model(...)] and [resp["body"].read()]: what is read from
    the response, or the exception raised on the way *)
Variable invoke_model : invocation → result string.
(** [self.model_id] *)
Variable model_id : string.

Definition request_body (prompt : string) (temperature max_tokens top_p : pyval) : pyval :=
  PDict {[ "inputText" := PStr prompt;
           "textGenerationConfig" :=
             PDict {[ "maxTokenCount" := max_tokens;
                      "temperature" := temperature;
                      "topP" := top_p ]} ]}.

Definition generate (prompt : string) (temperature max_tokens top_p : pyval) : result string :=
  let body := json_dumps (request_body prompt temperature max_tokens top_p) in
  raw ← invoke_model (Invocation model_id body "application/json" "application/json");
  data ← loads json_loads raw;
  results ← py_get data "results" (PList [PDict ∅]);
  first ← py_first results;
  text ← py_get first "outputText" (PStr "");
  py_strip_method text.

End BedrockLLM.

(** *** app.py

    One run of the script: [state] is [st.session_state.state] as the run
    finds it, [user_text] and [button] are what the text input and the
    button return.  The run leaves a session state and a page, or the
    exception that stopped it; what the page shows of the state is the
    message, the result and the state itself. *)

Inductive element :=
  | st_info (body : pyval)
  | st_success (body : pyval)
  | st_json (body : gmap string pyval).

Record rerun := Rerun { session_state : gmap string pyval; page : result (list element) }.

Definition display (state : gmap string pyval) : list element :=
  let msg := dict_get state "assistant_message" PNone in
  let res := dict_get state "result" PNone in
  (if py_truthy msg then [st_info msg] else [])
  ++ (if py_truthy res then [st_success res] else [])
  ++ [st_json state].

Section app.

Variable json_loads : string → option pyval.
Variable int_of_str : string → option Z.
(** the limit on the supersteps that [graph.invoke] has when it is given none *)
Variable recursion_limit : nat.

Definition app (gw : nat → gateway) (state : gmap string pyval) (user_text : string)
    (button : bool) : rerun :=
  if button && py_truthy (PStr (py_strip user_text)) then
    let state : gmap string pyval := {[ "user_input" := PStr user_text ]} in
    match invoke json_loads int_of_str 6 gw recursion_limit state with
    | Ok result_state =>
        let state := result_state ∪ state in
        Rerun state (Ok (display state))
    | Raise e => Rerun state (Raise e)
    end
  else Rerun state (Ok (display state)).

End app.

(** ** Sample replies

    Replies of the gateway that are JSON objects with string members, and
    what [json.loads] returns for them.  The gateways that give these
    replies are instances of the hypotheses of the properties on what
    [llm.generate] returns; with the templates of prompts.py the gateway is
    [rendering_gateway], which raises before the model is asked. *)

Definition quoted (s : string) : string := dquote +:+ s +:+ dquote.

Definition json_member (m : string * string) : string :=
  quoted m.1 +:+ ": " +:+ quoted m.2.

(** the text of a JSON object *)
Definition json_object (members : list (string * string)) : string :=
  "{" +:+ String.concat ", " (json_member <$> members) +:+ "}".

(** the dictionary that [json.loads] makes of that text *)
Definition as_dict (members : list (string * string)) : gmap string pyval :=
  list_to_map (prod_map id PStr <$> members).

Fixpoint repeat_string (n : nat) (s : string) : string :=
  match n with
  | O => EmptyString
  | S n' => s +:+ repeat_string n' s
  end.

Definition samples : list (list (string * string)) :=
  [ [];
    [("next_action", "validate")];
    [("next_action", "cancel")];
    [("next_action", "explode")];
    [("next_action", "finish"); ("assistant_message", "Could you clarify?")];
    [("next_action", "cancel"); ("reason", repeat_string 500 "a")];
    [("intent", "cancel"); ("reason", "asks to cancel")];
    [("reason", "no idea")] ].

(** [json.loads] on the sample replies, on a JSON array and on text that is
    not JSON *)
Definition sample_loads (text : string) : option pyval :=
  if String.eqb text "[]" then Some (PList [])
  else PDict ∘ as_dict <$> find (λ m, String.eqb (json_object m) text) samples.

(** a gateway that gives the same reply to every prompt, at every superstep *)
Definition always (text : string) : nat → gateway := λ _ _, Ok text.

(** [int] on a [str] for the sample runs, in which no [str] is ever
    converted *)
Definition sample_int : string → option Z := λ _, None.

Definition validate_reply : string := json_object [("next_action", "validate")].

Definition cancel_reply : string := json_object [("next_action", "cancel")].

Definition finish_reply : string :=
  json_object [("next_action", "finish"); ("assistant_message", "Could you clarify?")].


Definition long_reason_reply : string :=
  json_object [("next_action", "cancel"); ("reason", repeat_string 500 "a")].

Definition reason_only_reply : string := json_object [("reason", "no idea")].

(** a reply that is not JSON *)
Definition chatty_reply : string := "Sure, I will cancel the card.".

(** the state that the application passes to [graph.invoke] *)
Definition request (user_text : string) : gmap string pyval :=
  {[ "user_input" := PStr user_text ]}.

Definition sample_request : gmap string pyval :=
  request "please cancel my card ending 4321".

(** the decision that the guard makes of a bare [cancel] *)
Definition guarded_cancel : gmap string pyval :=
  {[ "next_action" := PStr "validate";
     "assistant_message" := PStr "";
     "intent" := PStr "unknown";
     "plan_reason" := PStr " | Guarded: validating before action" ]}.

(** the decision [cancel] in a validated state *)
Definition plain_cancel : gmap string pyval :=
  {[ "next_action" := PStr "cancel";
     "assistant_message" := PStr "";
     "intent" := PStr "unknown";
     "plan_reason" := PStr "" ]}.

(** [validated] as a prompt of the planner shows it *)
Definition shown_validated (p : prompt) : bool :=
  match lookup_keyword "validated" (prompt_kwargs p) with
  | Some v => py_truthy v
  | None => false
  end.

(** a gateway that answers by the prompt alone: [before] while the prompt
    shows no validation, [after] once it shows one *)
Definition by_validation (before after : string) : gateway :=
  λ p, Ok (if shown_validated p then after else before).

(** the planner asks for [validate] and, once validated, answers [text] *)
Definition validate_then (text : string) : gateway := by_validation validate_reply text.

(** a gateway that answers as [first] does in the first [k] supersteps and
    [text] from then on *)
Definition until (k : nat) (first : gateway) (text : string) : nat → gateway :=
  λ i, if (i <? k)%nat then first else λ _, Ok text.

(** the planner asks for [validate], then for [cancel], and for [finish]
    from the fifth superstep on *)
Definition cancel_then_finish : nat → gateway :=
  until 4 (validate_then cancel_reply) finish_reply.

(** the state that this run returns *)
Definition cancelled : gmap string pyval :=
  {[ "user_input" := PStr "please cancel my card ending 4321";
     "intent" := PStr "unknown";
     "intent_reason" := PStr "";
     "next_action" := PStr "finish";
     "assistant_message" := PStr "Could you clarify?";
     "plan_reason" := PStr "";
     "validated" := PBool true;
     "validation_reason" := PStr "Mock validation passed.";
     "result" := dict_get (cancel_card_tool ∅) "result" PNone;
     "step_count" := PInt 2 ]}.

(** the state that a run returns in which the planner asks for [validate]
    and then for [finish] *)
Definition validated_only : gmap string pyval :=
  {[ "user_input" := PStr "please cancel my card ending 4321";
     "intent" := PStr "unknown";
     "intent_reason" := PStr "";
     "next_action" := PStr "finish";
     "assistant_message" := PStr "Could you clarify?";
     "plan_reason" := PStr "";
     "validated" := PBool true;
     "validation_reason" := PStr "Mock validation passed.";
     "step_count" := PInt 1 ]}.

(** ** Vocabulary of the properties *)

(** the classifier's answer when the reply cannot be used *)
Definition intent_fallback : gmap string pyval :=
  {[ "intent" := PStr "unknown"; "intent_reason" := PStr "parse_error" ]}.

(** the planner's answer when the reply cannot be used *)
Definition planner_fallback : gmap string pyval :=
  {[ "next_action" := PStr "finish";
     "assistant_message" := PStr "I'm sorry, I couldn't process that.";
     "plan_reason" := PStr "parse_error" ]}.

(** the planner's answer to a reply that is the JSON object [d] *)
Definition planner_decision (state d : gmap string pyval) : gmap string pyval :=
  {[ "next_action" := dict_get d "next_action" (PStr "finish");
     "assistant_message" := dict_get d "assistant_message" (PStr "");
     "intent" := dict_get d "intent" (dict_get state "intent" (PStr "unknown"));
     "plan_reason" := dict_get d "reason" (PStr "") ]}.

(** [validated] as the guard reads it *)
Definition validated (state : gmap string pyval) : bool :=
  py_truthy (dict_get state "validated" (PBool false)).

(** a decision for one of the two destructive actions *)
Definition destructive (action : pyval) : bool :=
  py_in_strs action ["replace"; "cancel"].

(** the guard of [planner_node], the lines of the node that follow the call
    of the planner: what the node returns when the planner has decided
    [out] *)
Definition guard (state out : gmap string pyval) : result (gmap string pyval) :=
  if py_in_strs (dict_get out "next_action" PNone) ["replace"; "cancel"]
     && negb (py_truthy (dict_get state "validated" (PBool false)))
  then
    let out := <[ "next_action" := PStr "validate" ]> out in
    noted ← py_add_str (dict_get out "plan_reason" (PStr "")) guard_note;
    Ok (<[ "plan_reason" := PStr (py_prefix 500 noted) ]> out)
  else Ok out.

(** a reply that is no JSON object: [json.loads] raises, or returns a value
    that has no [get] *)
Definition unusable (parsed : option pyval) : Prop :=
  match parsed with
  | Some (PDict _) => False
  | _ => True
  end.

(** what the guard makes of a destructive decision [out] whose rationale is
    the string [reason] *)
Definition guarded (out : gmap string pyval) (reason : string) : gmap string pyval :=
  <[ "plan_reason" := PStr (py_prefix 500 (reason +:+ guard_note)) ]>
    (<[ "next_action" := PStr "validate" ]> out).

(** the keys that a node may write *)
Definition node_keys (n : node) : gset string :=
  match n with
  | classify => {[ "intent"; "intent_reason" ]}
  | planner => {[ "next_action"; "assistant_message"; "intent"; "plan_reason" ]}
  | tool => {[ "validated"; "validation_reason"; "result" ]}
  | step => {[ "step_count" ]}
  end.


Definition validate_plan : gmap string pyval := as_dict [("next_action", "validate")].

(** a computation that raises *)
Definition fails {A} (r : result A) : Prop := ∃ e, r = Raise e.

(** a computation that returns, and returns a configuration with [P] *)
Definition reaches (r : result config) (P : config → Prop) : Prop :=
  match r with
  | Ok c => P c
  | Raise _ => False
  end.

(** the items of a returned dictionary, to compare two of them by evaluation *)
Definition items (r : result (gmap string pyval)) : result (list (string * pyval)) :=
  match r with
  | Ok d => Ok (map_to_list d)
  | Raise e => Raise e
  end.

(** the same for a returned configuration *)
Definition summary (r : result config) : result (list (string * pyval) * list node) :=
  match r with
  | Ok c => Ok (map_to_list (values c), active c)
  | Raise e => Raise e
  end.

(** [step_count] as the step counter and the router read it *)
Definition step_count_is (state : gmap string pyval) (k : Z) : Prop :=
  dict_get state "step_count" (PInt 0) = PInt k.


(** one of the two texts that the tools give as [result] *)
Definition confirmation (v : pyval) : Prop :=
  v = dict_get (replace_card_tool ∅) "result" PNone
  ∨ v = dict_get (cancel_card_tool ∅) "result" PNone.

(** a state whose [result], when it has one, confirms an action on a
    validated request *)
Definition completed (state : gmap string pyval) : Prop :=
  ∀ v, state !! "result" = Some v → confirmation v ∧ validated state = true.

(** the keys of [CardState], the schema that [build_graph] gives the graph:
    the state of a run has these keys and no other *)
Definition CardState : gset string :=
  {[ "user_input"; "messages"; "intent"; "intent_reason"; "validated";
     "validation_reason"; "result"; "assistant_message"; "next_action";
     "plan_reason"; "step_count" ]}.

(** the keys that some node may write *)
Definition written_keys : gset string :=
  node_keys classify ∪ node_keys planner ∪ node_keys tool ∪ node_keys step.

(** a destructive decision whose rationale is no string *)
Definition unguardable (out : gmap string pyval) : Prop :=
  destructive (dict_get out "next_action" PNone) = true
  ∧ ∀ reason, dict_get out "plan_reason" (PStr "") ≠ PStr reason.

(** the configurations of a run: no node is triggered twice, the classifier
    runs alone, and the step count is an integer *)
Record orderly (c : config) : Prop := Orderly {
  orderly_NoDup : NoDup (active c);
  orderly_entry : classify ∈ active c → planner ∉ active c;
  orderly_count : ∃ k, step_count_is (values c) k
}.

(** the configurations of a run that starts without a result: a destructive
    action is dispatched in a validated state only, and a result is there
    in a validated state only *)
Record dispatch_safe (c : config) : Prop := DispatchSafe {
  safe_dispatch :
    tool ∈ active c →
    destructive (dict_get (values c) "next_action" (PStr "finish")) = true →
    validated (values c) = true;
  safe_result : completed (values c)
}.

(** the configurations of a run in which the planner is asked by one and the
    same gateway [llm]: once a destructive action is dispatched, or a result
    is there, the state is validated and the planner decides that action at
    every prompt equal to the one of the state *)
Record settled (json_loads : string → option pyval) (llm : gateway) (c : config) : Prop :=
  Settled {
  settled_validated : ∃ b, dict_get (values c) "validated" (PBool false) = PBool b;
  settled_action :
    tool ∈ active c ∨ is_Some (values c !! "result") →
    ∀ a, values c !! "next_action" = Some a → destructive a = true →
         validated (values c) = true
         ∧ ∀ state out, planner_prompt state = planner_prompt (values c) →
                        planner_node json_loads llm state = Ok out →
                        out !! "next_action" = Some a;
  settled_result :
    is_Some (values c !! "result") →
    ∃ a, values c !! "next_action" = Some a ∧ destructive a = true
}.

(** ** Tactics *)

Ltac bind_simpl := cbn [mbind mret result_mbind result_mret result_bind].

Ltac dom_solver :=
  let H := fresh in
  intros H; apply elem_of_dom in H; revert H;
  rewrite ?dom_insert_L, ?dom_singleton_L, ?dom_empty_L; unfold node_keys; set_solver.

(** ** The prompts *)

Lemma fails_raise {A} (e : exn) : fails (Raise e : result A).
Proof. by exists e. Qed.

Lemma fails_fmap {A B} (f : A → B) (r : result A) : fails r → fails (f <$> r).
Proof. intros [e ->]. by exists e. Qed.

Lemma fails_bind_l {A B} (k : A → result B) (r : result A) : fails r → fails (r ≫= k).
Proof. intros [e ->]. by exists e. Qed.

Lemma fails_bind {A B} (k : A → result B) (r : result A) :
  (∀ a, fails (k a)) → fails (r ≫= k).
Proof. intros Hk. destruct r as [a|e]; [apply Hk | by exists e]. Qed.

Section Prompts.

Variable render :
  pyval → string → option ascii → string → list (string * pyval) → result string.

(** The first replacement field of the classification template is the JSON
    example, and its name is no keyword of the call. *)
Lemma intent_prompt_raises (user_input : pyval) :
  str_format render [("user_input", user_input)] INTENT_ONLY_PROMPT_text = Raise KeyError.
Proof. vm_compute. reflexivity. Qed.

Lemma planner_prompt_fails (user_input validated : pyval) :
  fails (str_format render [("user_input", user_input); ("validated", validated)]
           PLANNER_PROMPT_text).
Proof.
  unfold str_format. lazy -[fmap mbind fails].
  repeat first [ apply fails_raise
               | apply fails_fmap
               | apply fails_bind_l; solve [apply fails_raise]
               | apply fails_bind; intros ? ].
Qed.

(** After the two fields of the state snapshot comes the JSON example. *)
Lemma planner_prompt_raises (user_input validated : pyval) (shown1 shown2 : string) :
  let kwargs := [("user_input", user_input); ("validated", validated)] in
  render user_input "" None "" kwargs = Ok shown1 →
  render validated "" None "" kwargs = Ok shown2 →
  str_format render kwargs PLANNER_PROMPT_text = Raise KeyError.
Proof.
  intros kwargs H1 H2. subst kwargs. unfold str_format. lazy -[fmap mbind].
  rewrite H1, H2. vm_compute. reflexivity.
Qed.

End Prompts.

(** ** Comparing by evaluation *)

Lemma items_inj (r : result (gmap string pyval)) (d : gmap string pyval) :
  items r = items (Ok d) → r = Ok d.
Proof.
  destruct r as [d'|e]; cbn; intros [= Heq]. f_equal.
  apply map_to_list_inj. by rewrite Heq.
Qed.

Lemma summary_inj (r : result config) (c : config) :
  summary r = summary (Ok c) → r = Ok c.
Proof.
  destruct r as [[d' a']|e]; destruct c as [d a]; cbn; intros [= Heq ->]. do 2 f_equal.
  apply map_to_list_inj. by rewrite Heq.
Qed.

Ltac by_items := apply items_inj; vm_compute; reflexivity.
Ltac by_summary := apply summary_inj; vm_compute; reflexivity.
Ltac by_eval := vm_compute; reflexivity.

(** ** Strings: length and slicing *)






(** ** The agents *)

Section Agents.

Variable json_loads : string → option pyval.

Implicit Types (llm : gateway) (state d out : gmap string pyval) (text : string).

Lemma intent_agent_reply llm user_input text :
  llm (intent_prompt user_input) = Ok text →
  intent_agent json_loads llm user_input =
    Ok (match json_loads text with
        | Some (PDict d) =>
            {[ "intent" := dict_get d "intent" (PStr "unknown");
               "intent_reason" := dict_get d "reason" (PStr "") ]}
        | _ => intent_fallback
        end).
Proof.
  intros Hllm. unfold intent_agent. rewrite Hllm. cbn.
  unfold loads. by destruct (json_loads text) as [[]|].
Qed.

Lemma planner_agent_reply llm state text :
  llm (planner_prompt state) = Ok text →
  planner_agent json_loads llm state =
    Ok (match json_loads text with
        | Some (PDict d) => planner_decision state d
        | _ => planner_fallback
        end).
Proof.
  intros Hllm. unfold planner_agent. rewrite Hllm. cbn.
  unfold loads. by destruct (json_loads text) as [[]|].
Qed.

Lemma planner_agent_gateway_error llm state e :
  llm (planner_prompt state) = Raise e →
  planner_agent json_loads llm state = Raise e.
Proof. intros Hllm. unfold planner_agent. by rewrite Hllm. Qed.

End Agents.

(** ** The agents with the templates of prompts.py *)

Section Rendering.

Variable json_loads : string → option pyval.
Variable render :
  pyval → string → option ascii → string → list (string * pyval) → result string.
Variable generate : string → result string.

Implicit Types (state : gmap string pyval).

Lemma intent_agent_renders (user_input : pyval) :
  intent_agent json_loads (rendering_gateway render generate) user_input = Raise KeyError.
Proof.
  unfold intent_agent, rendering_gateway, intent_prompt.
  cbn [prompt_kwargs prompt_template template_text].
  by rewrite intent_prompt_raises.
Qed.

Lemma planner_agent_renders state :
  fails (planner_agent json_loads (rendering_gateway render generate) state).
Proof.
  unfold planner_agent, rendering_gateway, planner_prompt.
  cbn [prompt_kwargs prompt_template template_text].
  apply fails_bind_l, fails_bind_l, planner_prompt_fails.
Qed.

Lemma planner_agent_renders_fields state (shown1 shown2 : string) :
  render (dict_get state "user_input" (PStr "")) "" None ""
    (prompt_kwargs (planner_prompt state)) = Ok shown1 →
  render (dict_get state "validated" (PBool false)) "" None ""
    (prompt_kwargs (planner_prompt state)) = Ok shown2 →
  planner_agent json_loads (rendering_gateway render generate) state = Raise KeyError.
Proof.
  intros H1 H2. unfold planner_agent, rendering_gateway, planner_prompt in *.
  cbn [prompt_kwargs prompt_template template_text] in *.
  by rewrite (planner_prompt_raises render _ _ shown1 shown2 H1 H2).
Qed.

End Rendering.

(** ** The guard of [planner_node] *)

Section Guard.

Variable json_loads : string → option pyval.

Implicit Types (llm : gateway) (state d out : gmap string pyval) (text : string).

Lemma planner_node_pass llm state out :
  planner_agent json_loads llm state = Ok out →
  destructive (dict_get out "next_action" PNone) && negb (validated state) = false →
  planner_node json_loads llm state = Ok out.
Proof.
  intros Hout Hcond. unfold planner_node. rewrite Hout. bind_simpl.
  unfold destructive, validated in Hcond. by rewrite Hcond.
Qed.


Lemma planner_node_rewrite_fails llm state out :
  planner_agent json_loads llm state = Ok out →
  destructive (dict_get out "next_action" PNone) = true →
  validated state = false →
  (∀ reason, dict_get out "plan_reason" (PStr "") ≠ PStr reason) →
  planner_node json_loads llm state = Raise TypeError.
Proof.
  intros Hout Hd Hv Hr. unfold planner_node. rewrite Hout. bind_simpl.
  unfold destructive, validated in Hd, Hv. rewrite Hd, Hv. cbn [andb negb]. bind_simpl.
  unfold dict_get in *. rewrite lookup_insert_ne by done.
  destruct (out !! "plan_reason") as [[]|]; try done; by edestruct Hr.
Qed.

Lemma planner_node_inv llm state out' :
  planner_node json_loads llm state = Ok out' →
  ∃ out, planner_agent json_loads llm state = Ok out ∧
    ((destructive (dict_get out "next_action" PNone) && negb (validated state) = false
      ∧ out' = out)
     ∨ (destructive (dict_get out "next_action" PNone) = true ∧ validated state = false
        ∧ ∃ reason, dict_get out "plan_reason" (PStr "") = PStr reason
                    ∧ out' = guarded out reason)).
Proof.
  unfold planner_node. destruct (planner_agent json_loads llm state) as [out|e] eqn:Hout;
    bind_simpl; [|done].
  fold (destructive (dict_get out "next_action" PNone)). fold (validated state).
  destruct (destructive _ && negb _) eqn:Hcond; intros Hres.
  - apply andb_true_iff in Hcond as [Hd Hv%negb_true_iff].
    exists out. split; [done|]. right. split_and!; [done..|].
    unfold dict_get in *. rewrite lookup_insert_ne in Hres by done.
    destruct (out !! "plan_reason") as [[]|]; simplify_eq/=; eauto.
  - simplify_eq. exists out'. eauto.
Qed.

Lemma guarded_next_action out reason :
  guarded out reason !! "next_action" = Some (PStr "validate").
Proof. unfold guarded. by rewrite lookup_insert_ne, lookup_insert_eq. Qed.

Lemma guarded_other out reason key :
  key ≠ "plan_reason" → key ≠ "next_action" →
  guarded out reason !! key = out !! key.
Proof. intros. unfold guarded. by rewrite !lookup_insert_ne. Qed.

(** The decision that leaves [planner_node] is not destructive unless the
    state it was taken in is validated. *)
Lemma planner_node_safe llm state out :
  planner_node json_loads llm state = Ok out →
  destructive (dict_get out "next_action" PNone) = true →
  validated state = true.
Proof.
  intros (out0 & _ & [[Hcond ->]|(_ & _ & reason & _ & ->)])%planner_node_inv Hd.
  - rewrite Hd in Hcond. by destruct (validated state).
  - unfold dict_get in Hd. by rewrite guarded_next_action in Hd.
Qed.

(** The planning step is the planner followed by the guard. *)
Lemma planner_node_guard llm state :
  planner_node json_loads llm state = planner_agent json_loads llm state ≫= guard state.
Proof. reflexivity. Qed.


End Guard.

(** ** The supersteps of the graph *)

Lemma mapM_Ok {A B} (f : A → result B) (l : list A) (ts : list B) :
  mapM f l = Ok ts ↔ Forall2 (λ x t, f x = Ok t) l ts.
Proof.
  revert ts. induction l as [|x l IH]; intros ts; cbn.
  - split; [intros [= <-]; constructor | by inversion 1].
  - destruct (f x) as [t|e] eqn:Hx; bind_simpl.
    + destruct (mapM f l) as [ts'|e] eqn:Hl; bind_simpl.
      * split.
        -- intros [= <-]. constructor; [done | by apply IH].
        -- inversion 1 as [|???? Hx' Hl']; subst. rewrite Hx in Hx'.
           apply IH in Hl'. by simplify_eq.
      * split; [done|]. inversion 1 as [|???? Hx' Hl']; subst.
        apply IH in Hl'. done.
    + split; [done|]. inversion 1 as [|???? Hx' Hl']; subst. by rewrite Hx in Hx'.
Qed.

Lemma merge_writes_lookup (ws : list (gmap string pyval)) (w : gmap string pyval) :
  merge_writes ws = Ok w →
  ∀ key v, w !! key = Some v ↔ ∃ u, u ∈ ws ∧ u !! key = Some v.
Proof.
  revert w. induction ws as [|u ws IH]; intros w; cbn.
  - intros [= <-] key v. rewrite lookup_empty. split; [done|].
    intros (? & []%elem_of_nil & _).
  - destruct (merge_writes ws) as [acc|e]; bind_simpl; [|done].
    destruct (decide (u ##ₘ acc)) as [Hdisj|]; [|done].
    intros [= <-] key v. rewrite lookup_union_Some by done. rewrite (IH acc eq_refl).
    setoid_rewrite elem_of_cons. naive_solver.
Qed.

Lemma elem_of_scheduled (n : node) (l : list node) : n ∈ scheduled l ↔ n ∈ l.
Proof.
  unfold scheduled. rewrite list_elem_of_filter. split; [by intros [? _]|].
  intros Hn. split; [done|]. unfold all_nodes. destruct n; set_solver.
Qed.

Lemma NoDup_scheduled (l : list node) : NoDup (scheduled l).
Proof.
  apply NoDup_filter. unfold all_nodes.
  repeat (apply NoDup_cons; split; [set_solver|]). apply NoDup_nil_2.
Qed.

(** ** The dispatcher *)

Lemma py_eq_str_true (v : pyval) (lit : string) : py_eq_str v lit = true ↔ v = PStr lit.
Proof.
  destruct v; cbn; try (split; [done | by intros [=]]).
  rewrite String.eqb_eq. split; [by intros -> | by intros [= ->]].
Qed.

Lemma tool_node_result (state : gmap string pyval) :
  is_Some (tool_node state !! "result")
  ↔ destructive (dict_get state "next_action" (PStr "finish")) = true.
Proof.
  unfold tool_node, destructive, py_in_strs. cbn [existsb].
  destruct (py_eq_str _ "validate") eqn:Hv.
  - apply py_eq_str_true in Hv as ->. cbn. split; [by intros [? ?] | done].
  - destruct (py_eq_str _ "replace") eqn:Hr; [cbn; split; [done | by eauto]|].
    destruct (py_eq_str _ "cancel") eqn:Hc; [cbn; split; [done | by eauto]|].
    cbn. rewrite lookup_empty. split; [by intros [? ?] | done].
Qed.

Section Graph.

Variable json_loads : string → option pyval.
Variable int_of_str : string → option Z.
Variable max_steps : Z.

Implicit Types (llm : gateway) (state out : gmap string pyval) (c : config) (n m : node).

Local Abbreviation node_fn' := (node_fn json_loads int_of_str).
Local Abbreviation run_task' := (run_task json_loads int_of_str max_steps).
Local Abbreviation superstep' := (superstep json_loads int_of_str max_steps).
Local Abbreviation supersteps' := (supersteps json_loads int_of_str max_steps).

Lemma planner_agent_keys llm state out key :
  planner_agent json_loads llm state = Ok out →
  is_Some (out !! key) → key ∈ node_keys planner.
Proof.
  destruct (llm (planner_prompt state)) as [text|e] eqn:Hllm.
  - rewrite (planner_agent_reply _ _ _ _ Hllm). intros [= <-].
    destruct (json_loads text) as [[]|]; unfold planner_fallback, planner_decision;
      dom_solver.
  - by rewrite (planner_agent_gateway_error _ _ _ _ Hllm).
Qed.

Lemma planner_agent_next_action llm state out :
  planner_agent json_loads llm state = Ok out → is_Some (out !! "next_action").
Proof.
  destruct (llm (planner_prompt state)) as [text|e] eqn:Hllm.
  - rewrite (planner_agent_reply _ _ _ _ Hllm). intros [= <-].
    destruct (json_loads text) as [[]|]; unfold planner_fallback, planner_decision;
      by rewrite lookup_insert_eq.
  - by rewrite (planner_agent_gateway_error _ _ _ _ Hllm).
Qed.

Lemma planner_node_next_action llm state out :
  planner_node json_loads llm state = Ok out → is_Some (out !! "next_action").
Proof.
  intros (out0 & Hout0 & [[_ ->]|(_ & _ & reason & _ & ->)])%planner_node_inv.
  - by eapply planner_agent_next_action.
  - by rewrite guarded_next_action.
Qed.

Lemma node_fn_keys llm n state out key :
  node_fn' llm n state = Ok out → is_Some (out !! key) → key ∈ node_keys n.
Proof.
  destruct n; cbn [node_fn].
  - unfold classify_node.
    destruct (llm (intent_prompt (dict_get state "user_input" (PStr "")))) as [text|e]
      eqn:Hllm.
    + rewrite (intent_agent_reply _ _ _ _ Hllm). intros [= <-].
      destruct (json_loads text) as [[]|]; unfold intent_fallback; dom_solver.
    + unfold intent_agent. by rewrite Hllm.
  - intros (out0 & Hout0 & [[_ ->]|(_ & _ & reason & _ & ->)])%planner_node_inv.
    + by eapply planner_agent_keys.
    + intros Hsome. destruct (decide (key = "plan_reason")) as [->|?];
        [unfold node_keys; set_solver|].
      destruct (decide (key = "next_action")) as [->|?];
        [unfold node_keys; set_solver|].
      rewrite guarded_other in Hsome by done. by eapply planner_agent_keys.
  - intros [= <-]. unfold tool_node, validate_ownership_tool, replace_card_tool,
      cancel_card_tool.
    repeat case_match; dom_solver.
  - unfold step_node. destruct (py_int _ _) as [k|e]; bind_simpl; [|done].
    intros [= <-]. dom_solver.
Qed.

(** *** One task *)

Lemma run_task_inv llm state n t :
  run_task' llm state n = Ok t →
  node_fn' llm n state = Ok (writes t) ∧
  ∃ conditional,
    triggers t = (filter (λ e, e.1 = n) edges).*2 ++ conditional ∧
    match branches int_of_str max_steps n with
    | None => conditional = []
    | Some path => ∃ dest, path (writes t ∪ state) = Ok dest ∧ conditional = option_list dest
    end.
Proof.
  unfold run_task. destruct (node_fn' llm n state) as [w|e]; bind_simpl; [|done].
  destruct (branches _ _ n) as [path|] eqn:Hb; bind_simpl.
  - destruct (path (w ∪ state)) as [dest|e] eqn:Hp; bind_simpl; [|done].
    intros [= <-]. cbn. split; [done|]. eexists. split; [done|]. eauto.
  - intros [= <-]. cbn. split; [done|]. eexists. split; done.
Qed.

Lemma route_after_planner_dest state dest :
  route_after_planner state = Ok dest → dest = END ∨ dest = Some tool.
Proof. unfold route_after_planner. case_match; intros [= <-]; auto. Qed.

Lemma route_after_tool_dest state dest :
  route_after_tool int_of_str max_steps state = Ok dest → dest = END ∨ dest = Some planner.
Proof.
  unfold route_after_tool. case_match; [intros [= <-]; auto|].
  destruct (py_int _ _) as [k|e]; bind_simpl; [|done].
  case_match; intros [= <-]; auto.
Qed.

Lemma run_task_triggers llm state n t :
  run_task' llm state n = Ok t →
  match n with
  | classify | step => triggers t = [planner]
  | planner =>
      ∃ dest, route_after_planner (writes t ∪ state) = Ok dest ∧
              triggers t = option_list dest
  | tool =>
      ∃ dest, route_after_tool int_of_str max_steps (writes t ∪ state) = Ok dest ∧
              triggers t = step :: option_list dest
  end.
Proof.
  intros (_ & conditional & -> & Hb)%run_task_inv.
  destruct n; cbn in Hb; try (subst conditional; reflexivity);
    destruct Hb as (dest & Hdest & ->); exists dest; split; done.
Qed.

(** *** One superstep *)

Lemma superstep_inv llm c c' :
  superstep' llm c = Ok c' →
  ∃ tasks w,
    Forall2 (λ n t, run_task' llm (values c) n = Ok t) (active c) tasks ∧
    merge_writes (writes <$> tasks) = Ok w ∧
    c' = Config (w ∪ values c) (scheduled (tasks ≫= triggers)).
Proof.
  unfold superstep.
  destruct (mapM _ (active c)) as [tasks|e] eqn:Htasks; bind_simpl; [|done].
  destruct (merge_writes _) as [w|e] eqn:Hw; bind_simpl; [|done].
  intros [= <-]. exists tasks, w. by rewrite <-mapM_Ok.
Qed.

Lemma Forall2_elem_of_left {A B} (P : A → B → Prop) (l : list A) (k : list B) (x : A) :
  Forall2 P l k → x ∈ l → ∃ y, y ∈ k ∧ P x y.
Proof.
  induction 1 as [|a b l k Hab _ IH]; [by intros ?%elem_of_nil|].
  intros [->|Hx]%elem_of_cons.
  - exists b. split; [left | done].
  - destruct (IH Hx) as (y & ? & ?). exists y. split; [by right | done].
Qed.

Lemma Forall2_elem_of_right {A B} (P : A → B → Prop) (l : list A) (k : list B) (y : B) :
  Forall2 P l k → y ∈ k → ∃ x, x ∈ l ∧ P x y.
Proof.
  induction 1 as [|a b l k Hab _ IH]; [by intros ?%elem_of_nil|].
  intros [->|Hy]%elem_of_cons.
  - exists a. split; [left | done].
  - destruct (IH Hy) as (x & ? & ?). exists x. split; [by right | done].
Qed.

Lemma superstep_task llm c c' n :
  superstep' llm c = Ok c' → n ∈ active c →
  ∃ t, run_task' llm (values c) n = Ok t.
Proof.
  intros (tasks & w & Htasks & _)%superstep_inv Hn.
  destruct (Forall2_elem_of_left _ _ _ _ Htasks Hn) as (t & _ & Ht). eauto.
Qed.

Lemma superstep_active llm c c' m :
  superstep' llm c = Ok c' →
  m ∈ active c' ↔ ∃ n t, n ∈ active c ∧ run_task' llm (values c) n = Ok t ∧ m ∈ triggers t.
Proof.
  intros (tasks & w & Htasks & _ & ->)%superstep_inv. cbn [active values].
  rewrite elem_of_scheduled, list_elem_of_bind. split.
  - intros (t & Hm & Ht).
    destruct (Forall2_elem_of_right _ _ _ _ Htasks Ht) as (n & ? & ?). eauto.
  - intros (n & t & Hn & Ht & Hm).
    destruct (Forall2_elem_of_left _ _ _ _ Htasks Hn) as (t' & ? & Ht').
    rewrite Ht in Ht'. simplify_eq. eauto.
Qed.

Lemma superstep_lookup_node llm c c' n out key v :
  superstep' llm c = Ok c' → n ∈ active c →
  node_fn' llm n (values c) = Ok out → out !! key = Some v →
  values c' !! key = Some v.
Proof.
  intros (tasks & w & Htasks & Hw & ->)%superstep_inv Hn Hout Hkey. cbn [active values].
  destruct (Forall2_elem_of_left _ _ _ _ Htasks Hn) as (t & Ht & [Hfn _]%run_task_inv).
  rewrite Hout in Hfn. simplify_eq.
  apply lookup_union_Some_l. apply (merge_writes_lookup _ _ Hw).
  exists (writes t). split; [|done]. apply list_elem_of_fmap. eauto.
Qed.

Lemma superstep_lookup_cases llm c c' key :
  superstep' llm c = Ok c' →
  values c' !! key = values c !! key ∨
  ∃ n out v, n ∈ active c ∧ node_fn' llm n (values c) = Ok out ∧
             out !! key = Some v ∧ values c' !! key = Some v.
Proof.
  intros (tasks & w & Htasks & Hw & ->)%superstep_inv. cbn [active values].
  rewrite lookup_union. destruct (w !! key) as [v|] eqn:Hkey.
  - right. apply (merge_writes_lookup _ _ Hw) in Hkey as (u & Hu & Hkey).
    apply list_elem_of_fmap in Hu as (t & -> & Ht).
    destruct (Forall2_elem_of_right _ _ _ _ Htasks Ht) as (n & Hn & [Hfn _]%run_task_inv).
    exists n, (writes t), v. rewrite union_Some_l. done.
  - left. by rewrite (left_id None _).
Qed.

Lemma superstep_lookup_frame llm c c' key :
  superstep' llm c = Ok c' →
  (∀ n, n ∈ active c → key ∉ node_keys n) →
  values c' !! key = values c !! key.
Proof.
  intros Hstep Hkeys.
  destruct (superstep_lookup_cases _ _ _ key Hstep) as [|(n & out & v & Hn & Hout & Hv & _)];
    [done|].
  destruct (Hkeys n Hn). eapply node_fn_keys; eauto.
Qed.

(** *** Runs *)

Lemma supersteps_last (gw : nat → gateway) (n k : nat) c c' :
  supersteps' gw (S n) k c = Ok c' ↔
  ∃ c1, supersteps' gw n k c = Ok c1 ∧ superstep' (gw (k + n)%nat) c1 = Ok c'.
Proof.
  revert k c. induction n as [|n IH]; intros k c.
  - cbn [supersteps]. rewrite Nat.add_0_r. split.
    + destruct (superstep' (gw k) c) as [c1|e] eqn:Hc; bind_simpl; [|done].
      intros [= <-]. by exists c.
    + intros (c1 & [= <-] & ->). done.
  - change (supersteps' gw (S (S n)) k c)
      with (superstep' (gw k) c ≫= supersteps' gw (S n) (S k)).
    change (supersteps' gw (S n) k c)
      with (superstep' (gw k) c ≫= supersteps' gw n (S k)).
    destruct (superstep' (gw k) c) as [c1|e]; bind_simpl.
    + rewrite IH. by replace (S k + n)%nat with (k + S n)%nat by lia.
    + split; [done|]. by intros (? & ? & _).
Qed.


(** *** [validated] *)

Lemma node_fn_validated llm n state out :
  node_fn' llm n state = Ok out →
  out !! "validated" = None ∨ out !! "validated" = Some (PBool true).
Proof.
  intros Hout. destruct (decide (n = tool)) as [->|Hn].
  - cbn in Hout. simplify_eq. unfold tool_node, validate_ownership_tool,
      replace_card_tool, cancel_card_tool. repeat case_match; auto.
  - left. apply eq_None_not_Some. intros Hsome.
    pose proof (node_fn_keys _ _ _ _ _ Hout Hsome) as Hkey.
    destruct n; unfold node_keys in Hkey; set_solver.
Qed.

Lemma superstep_validated llm c c' :
  superstep' llm c = Ok c' → validated (values c) = true → validated (values c') = true.
Proof.
  intros Hstep Hv. unfold validated, dict_get in *.
  destruct (superstep_lookup_cases _ _ _ "validated" Hstep)
    as [->|(n & out & v & _ & Hout & Hkey & ->)]; [done|].
  destruct (node_fn_validated _ _ _ _ Hout); by simplify_eq.
Qed.

Lemma supersteps_validated (gw : nat → gateway) (n k : nat) c c' :
  supersteps' gw n k c = Ok c' → validated (values c) = true → validated (values c') = true.
Proof.
  revert k c. induction n as [|n IH]; intros k c; cbn [supersteps].
  - by intros [= <-].
  - destruct (superstep' (gw k) c) as [c1|e] eqn:Hc; bind_simpl; [|done].
    intros Hrest Hv. eapply IH; [done|]. by eapply superstep_validated.
Qed.

(** *** What the dispatcher finds in the state *)

Lemma superstep_tool_triggered llm c c' :
  superstep' llm c = Ok c' → tool ∈ active c' →
  planner ∈ active c ∧
  ∃ out, planner_node json_loads llm (values c) = Ok out ∧
         values c' !! "next_action" = out !! "next_action" ∧
         is_Some (out !! "next_action").
Proof.
  intros Hstep Htool.
  apply (superstep_active _ _ _ _ Hstep) in Htool as (n & t & Hn & Ht & Htool).
  pose proof (run_task_triggers _ _ _ _ Ht) as Htr.
  destruct n.
  - rewrite Htr in Htool. set_solver.
  - split; [done|]. apply run_task_inv in Ht as [Hout _]. cbn in Hout.
    exists (writes t). split; [done|].
    destruct (planner_node_next_action _ _ _ Hout) as [a Ha].
    split; [|by eauto]. rewrite Ha.
    by apply (superstep_lookup_node _ _ _ planner (writes t) _ _ Hstep Hn).
  - destruct Htr as (dest & [->| ->]%route_after_tool_dest & Htr);
      rewrite Htr in Htool; set_solver.
  - rewrite Htr in Htool. set_solver.
Qed.

Lemma superstep_tool_safe llm c c' :
  superstep' llm c = Ok c' → tool ∈ active c' →
  destructive (dict_get (values c') "next_action" (PStr "finish")) = true →
  validated (values c') = true.
Proof.
  intros Hstep Htool Hd.
  destruct (superstep_tool_triggered _ _ _ Hstep Htool) as (_ & out & Hout & Hkey & [a Ha]).
  eapply superstep_validated; [done|]. eapply planner_node_safe; [done|].
  unfold dict_get in *. rewrite Hkey, Ha in Hd. by rewrite Ha.
Qed.

(** *** The step counter *)

Lemma superstep_step_triggered llm c c' :
  superstep' llm c = Ok c' → step ∈ active c' ↔ tool ∈ active c.
Proof.
  intros Hstep. rewrite (superstep_active _ _ _ _ Hstep). split.
  - intros (n & t & Hn & Ht & Hm). pose proof (run_task_triggers _ _ _ _ Ht) as Htr.
    destruct n; [rewrite Htr in Hm; set_solver| |done|rewrite Htr in Hm; set_solver].
    destruct Htr as (dest & [->| ->]%route_after_planner_dest & Htr);
      rewrite Htr in Hm; set_solver.
  - intros Htool. destruct (superstep_task _ _ _ _ Hstep Htool) as [t Ht].
    exists tool, t. split_and!; [done..|].
    destruct (run_task_triggers _ _ _ _ Ht) as (dest & _ & ->). set_solver.
Qed.

Lemma superstep_step_runs llm c c' :
  superstep' llm c = Ok c' → step ∈ active c →
  ∃ k, py_int int_of_str (dict_get (values c) "step_count" (PInt 0)) = Ok k ∧
       values c' !! "step_count" = Some (PInt (k + 1)).
Proof.
  intros Hstep Hs. destruct (superstep_task _ _ _ _ Hstep Hs) as [t Ht].
  apply run_task_inv in Ht as [Hout _].
  assert (step_node int_of_str (values c) = Ok (writes t)) as Hnode by done.
  unfold step_node in Hnode.
  destruct (py_int int_of_str (dict_get (values c) "step_count" (PInt 0))) as [k|e];
    revert Hnode; bind_simpl; [|done].
  intros [= Hw]. exists k. split; [done|].
  apply (superstep_lookup_node _ _ _ step (writes t) _ _ Hstep Hs Hout).
  by rewrite <-Hw, lookup_singleton_eq.
Qed.

Lemma superstep_step_idle llm c c' :
  superstep' llm c = Ok c' → step ∉ active c →
  values c' !! "step_count" = values c !! "step_count".
Proof.
  intros Hstep Hs. apply (superstep_lookup_frame _ _ _ _ Hstep).
  intros n Hn. destruct n; unfold node_keys; set_solver.
Qed.

(** *** When a superstep succeeds *)

Lemma node_keys_clash n m key :
  key ∈ node_keys n → key ∈ node_keys m →
  n = m ∨ (n = classify ∧ m = planner) ∨ (n = planner ∧ m = classify).
Proof. destruct n, m; unfold node_keys; set_solver. Qed.

Lemma merge_writes_Ok (ns : list node) (tasks : list task) :
  Forall2 (λ n t, ∀ key, is_Some (writes t !! key) → key ∈ node_keys n) ns tasks →
  NoDup ns → (classify ∈ ns → planner ∉ ns) →
  ∃ w, merge_writes (writes <$> tasks) = Ok w ∧
       ∀ key, is_Some (w !! key) → ∃ n, n ∈ ns ∧ key ∈ node_keys n.
Proof.
  induction 1 as [|n t ns tasks Hkeys _ IH]; intros Hdup Hcp.
  - exists ∅. split; [done|]. intros key. rewrite lookup_empty. by intros [? ?].
  - apply NoDup_cons in Hdup as [Hn Hdup].
    destruct IH as (acc & Hacc & Hacc_keys); [done|set_solver|].
    cbn [fmap list_fmap merge_writes]. rewrite Hacc. bind_simpl.
    rewrite decide_True.
    + eexists. split; [done|]. intros key [Hsome|Hsome]%lookup_union_is_Some.
      * exists n. split; [left | auto].
      * destruct (Hacc_keys key Hsome) as (m & ? & ?). exists m. split; [by right | done].
    + apply map_disjoint_spec. intros key v1 v2 Hv1 Hv2.
      destruct (Hacc_keys key) as (m & Hm & Hkm); [by eauto|].
      destruct (node_keys_clash n m key) as [->|[[-> ->]|[-> ->]]];
        [by eauto | done | done | set_solver | set_solver..].
Qed.


(** *** How a run ends *)

Lemma superstep_ends llm c c' n :
  superstep' llm c = Ok c' → n ∈ active c → active c' = [] →
  values c' !! "next_action" = Some (PStr "finish").
Proof.
  intros Hstep Hn Hnil.
  destruct (superstep_task _ _ _ _ Hstep Hn) as [t Ht].
  assert (triggers t = []) as Hnone.
  { destruct (triggers t) as [|m ms] eqn:Htr; [done|].
    assert (m ∈ active c') as Hm.
    { apply (superstep_active _ _ _ _ Hstep). exists n, t. rewrite Htr.
      split_and!; [done..|left]. }
    rewrite Hnil in Hm. by apply elem_of_nil in Hm. }
  pose proof (run_task_triggers _ _ _ _ Ht) as Htr. rewrite Hnone in Htr.
  destruct n; [done| |by destruct Htr as (? & _ & ?)|done].
  destruct Htr as (dest & Hroute & Hdest).
  destruct dest; [done|].
  apply run_task_inv in Ht as [Hout _]. cbn [node_fn] in Hout.
  destruct (planner_node_next_action _ _ _ Hout) as [a Ha].
  rewrite (superstep_lookup_node _ _ _ planner (writes t) _ _ Hstep Hn Hout Ha).
  unfold route_after_planner, dict_get in Hroute.
  rewrite (lookup_union_Some_l _ _ _ _ Ha) in Hroute.
  destruct (py_eq_str a "finish") eqn:Hfin; [|done].
  by apply py_eq_str_true in Hfin as ->.
Qed.

Lemma run_loop_returns (gw : nat → gateway) (limit k : nat) c n state :
  run_loop json_loads int_of_str max_steps gw limit k c = Ok state →
  n ∈ active c →
  state !! "next_action" = Some (PStr "finish").
Proof.
  revert k c n. induction limit as [|limit IH]; intros k c n; cbn [run_loop]; [done|].
  destruct (active c) as [|n' ns] eqn:Hactive; [by intros _ ?%elem_of_nil|].
  destruct (superstep' (gw k) c) as [c'|e] eqn:Hstep; bind_simpl; [|done].
  intros Hrun Hn. rewrite <-Hactive in Hn.
  destruct (active c') as [|m ms] eqn:Hnext.
  - destruct limit; cbn [run_loop] in Hrun; [done|]. rewrite Hnext in Hrun. simplify_eq.
    by eapply superstep_ends.
  - apply (IH _ _ m Hrun). rewrite Hnext. left.
Qed.

End Graph.

(** ** A planner that never finishes *)


Section Looping.

Variable json_loads : string → option pyval.
Variable int_of_str : string → option Z.
Variable max_steps : Z.
Variable gw : nat → gateway.

Implicit Types (state : gmap string pyval) (c : config) (i : nat).

(** The classifier returns, and the decision that leaves the planning step
    is [validate] whenever it is asked. *)
Hypothesis classifies : ∀ i state, ∃ cls, classify_node json_loads (gw i) state = Ok cls.
Hypothesis plans_validate :
  ∀ i state, ∃ out, planner_node json_loads (gw i) state = Ok out ∧
                    out !! "next_action" = Some (PStr "validate").

Local Abbreviation run_task' := (run_task json_loads int_of_str max_steps).
Local Abbreviation superstep' := (superstep json_loads int_of_str max_steps).










End Looping.

(** ** The properties of the control loop *)

Section Claims.

Variable json_loads : string → option pyval.
Variable int_of_str : string → option Z.
Variable max_steps : Z.

Implicit Types (llm : gateway) (gw : nat → gateway) (state input out d : gmap string pyval).
Implicit Types (c : config) (text : string).

(** C1: whatever the planner proposes, the decision that leaves the guard in
    a state that is not validated is neither [replace] nor [cancel]; and in
    every configuration that a run reaches, when the dispatcher is about to
    run in a state that is not validated, the action it finds is not
    destructive and it writes no [result]. *)
Theorem guard_blocks_unvalidated_destruction :
  (∀ llm state out,
     planner_node json_loads llm state = Ok out →
     validated state = false →
     destructive (dict_get out "next_action" PNone) = false)
  ∧ (∀ gw input n c,
       supersteps json_loads int_of_str max_steps gw n 0 (start input) = Ok c →
       tool ∈ active c →
       validated (values c) = false →
       destructive (dict_get (values c) "next_action" (PStr "finish")) = false
       ∧ tool_node (values c) !! "result" = None).
Proof.
  split.
  - intros llm state out Hout Hv.
    destruct (destructive _) eqn:Hd; [|done].
    by rewrite (planner_node_safe _ _ _ _ Hout Hd) in Hv.
  - intros gw input n c Hrun Htool Hv.
    assert (destructive (dict_get (values c) "next_action" (PStr "finish")) = false) as Hd.
    { destruct (destructive _) eqn:Hd; [|done]. destruct n as [|n].
      - cbn in Hrun. simplify_eq. cbn in Htool. set_solver.
      - apply supersteps_last in Hrun as (c1 & _ & Hlast).
        by rewrite (superstep_tool_safe _ _ _ _ _ _ Hlast Htool Hd) in Hv. }
    split; [done|]. apply eq_None_not_Some. rewrite tool_node_result. by rewrite Hd.
Qed.


(** X4: in a superstep the step count stays or grows by one; it grows by
    one exactly when the step node runs, and the step node runs in exactly
    the supersteps that follow a dispatch.  The decision to end or to plan
    again is taken by [route_after_tool] on the values right after the
    dispatch, before the count grows, and when it answers [planner] the
    planner is triggered together with the step node. *)
Theorem step_count_once_per_dispatch llm c c' k :
  superstep json_loads int_of_str max_steps llm c = Ok c' →
  step_count_is (values c) k →
  (step ∈ active c' ↔ tool ∈ active c)
  ∧ (step ∈ active c → step_count_is (values c') (k + 1))
  ∧ (step ∉ active c → step_count_is (values c') k)
  ∧ (tool ∈ active c →
     ∃ dest, route_after_tool int_of_str max_steps (tool_node (values c) ∪ values c) = Ok dest ∧
             (dest = Some planner → planner ∈ active c' ∧ step ∈ active c')).
Proof.
  intros Hstep Hk. split_and!.
  - by apply (superstep_step_triggered _ _ _ _ _ _ Hstep).
  - intros Hs. destruct (superstep_step_runs _ _ _ _ _ _ Hstep Hs) as (k1 & Hk1 & Hsc).
    rewrite Hk in Hk1. cbn in Hk1. simplify_eq.
    unfold step_count_is, dict_get. by rewrite Hsc.
  - intros Hs. unfold step_count_is, dict_get in *.
    by rewrite (superstep_step_idle _ _ _ _ _ _ Hstep Hs).
  - intros Htool. destruct (superstep_task _ _ _ _ _ _ _ Hstep Htool) as [t Ht].
    pose proof (run_task_triggers _ _ _ _ _ _ _ Ht) as (dest & Hdest & Htr).
    apply run_task_inv in Ht as Hinv. destruct Hinv as [Hout _].
    cbn in Hout. simplify_eq. rewrite <-Hout in Hdest. exists dest. split; [done|].
    intros ->. split.
    + apply (superstep_active _ _ _ _ _ _ _ Hstep). exists tool, t.
      split_and!; [done..|]. rewrite Htr. set_solver.
    + by apply (superstep_step_triggered _ _ _ _ _ _ Hstep).
Qed.

(** C5: with the template of prompts.py the classifier raises [KeyError]
    for every input, while it renders its prompt, before the gateway is
    called and outside its [try]; and so does the classification step.
    What the classifier raises is what the call of the gateway raises, and
    given a reply text it does not raise: when the text is not JSON, or is
    JSON that is no object, it returns intent [unknown] with reason
    [parse_error]; when the text is a JSON object it returns the object's
    [intent], [unknown] when that is missing, and as reason the object's
    [reason], the empty string when that is missing. *)
Theorem classifier_raises_past_its_boundary :
  (∀ render generate user_input,
     intent_agent json_loads (rendering_gateway render generate) user_input = Raise KeyError)
  ∧ (∀ render generate state,
       classify_node json_loads (rendering_gateway render generate) state = Raise KeyError)
  ∧ (∀ llm user_input e,
       llm (intent_prompt user_input) = Raise e →
       intent_agent json_loads llm user_input = Raise e)
  ∧ (∀ llm user_input text,
       llm (intent_prompt user_input) = Ok text →
       (unusable (json_loads text) →
        intent_agent json_loads llm user_input =
          Ok {[ "intent" := PStr "unknown"; "intent_reason" := PStr "parse_error" ]})
       ∧ (∀ d, json_loads text = Some (PDict d) →
               intent_agent json_loads llm user_input =
                 Ok {[ "intent" := dict_get d "intent" (PStr "unknown");
                       "intent_reason" := dict_get d "reason" (PStr "") ]})).
Proof.
  split_and!.
  - intros render generate user_input. apply intent_agent_renders.
  - intros render generate state. unfold classify_node. apply intent_agent_renders.
  - intros llm user_input e Hllm. unfold intent_agent. by rewrite Hllm.
  - intros llm user_input text Hllm.
    rewrite (intent_agent_reply json_loads _ _ _ Hllm). split.
    + by destruct (json_loads text) as [[]|].
    + by intros d ->.
Qed.

(** C6: with the template of prompts.py the planner raises for every state
    while it renders its prompt, before the gateway is called and outside
    its [try]: a [KeyError] once the two fields of the state snapshot are
    rendered; and so does the planning step.  What the planner raises is
    what the call of the gateway raises; given a reply text that does not
    parse as JSON it returns the decision [finish] with the apology as
    message and [parse_error] as rationale, which the guard leaves as it is
    and on which the planning step ends the run. *)
Theorem planner_raises_before_its_fallback :
  (∀ render generate state,
     fails (planner_agent json_loads (rendering_gateway render generate) state))
  ∧ (∀ render generate state (shown1 shown2 : string),
       render (dict_get state "user_input" (PStr "")) "" None ""
         (prompt_kwargs (planner_prompt state)) = Ok shown1 →
       render (dict_get state "validated" (PBool false)) "" None ""
         (prompt_kwargs (planner_prompt state)) = Ok shown2 →
       planner_agent json_loads (rendering_gateway render generate) state = Raise KeyError
       ∧ planner_node json_loads (rendering_gateway render generate) state = Raise KeyError)
  ∧ (∀ llm state e,
       llm (planner_prompt state) = Raise e →
       planner_agent json_loads llm state = Raise e)
  ∧ (∀ llm state text,
       llm (planner_prompt state) = Ok text →
       json_loads text = None →
       let decision : gmap string pyval :=
         {[ "next_action" := PStr "finish";
            "assistant_message" := PStr "I'm sorry, I couldn't process that.";
            "plan_reason" := PStr "parse_error" ]} in
       planner_agent json_loads llm state = Ok decision
       ∧ planner_node json_loads llm state = Ok decision
       ∧ route_after_planner (decision ∪ state) = Ok END).
Proof.
  split_and!.
  - intros render generate state. apply planner_agent_renders.
  - intros render generate state shown1 shown2 H1 H2.
    pose proof (planner_agent_renders_fields json_loads render generate state _ _ H1 H2)
      as Hagent.
    split; [done|]. rewrite planner_node_guard. by rewrite Hagent.
  - intros llm state e. apply planner_agent_gateway_error.
  - intros llm state text Hllm Hnone decision.
    pose proof (planner_agent_reply json_loads _ _ _ Hllm) as Hagent.
    rewrite Hnone in Hagent. split_and!; [done| |].
    + by apply planner_node_pass.
    + unfold route_after_planner, dict_get.
      by erewrite lookup_union_Some_l by (by apply lookup_insert_eq).
Qed.

(** C7: the dispatcher maps [validate] to the update that sets [validated]
    to true and gives a [validation_reason]; [replace] and [cancel] each to
    an update that holds a [result] and nothing else, the text that confirms
    the replacement and the text that confirms the cancellation, neither of
    them empty, so that the router and the application see the result; and
    every other action, [finish] included, to the empty update.  So the
    update holds a [result] exactly when the action is [replace] or
    [cancel]. *)
Theorem tool_node_dispatch state action :
  dict_get state "next_action" (PStr "finish") = action →
  (action = PStr "validate" →
   tool_node state =
     {[ "validated" := PBool true; "validation_reason" := PStr "Mock validation passed." ]})
  ∧ (action = PStr "replace" →
     tool_node state =
       {[ "result" := PStr "âœ… Replacement completed. A new card will arrive in 5â€“7 business days." ]})
  ∧ (action = PStr "cancel" →
     tool_node state =
       {[ "result" := PStr "ðŸ›‘ Cancellation completed. Your card is now inactive." ]})
  ∧ (action = PStr "replace" ∨ action = PStr "cancel" →
     py_truthy (dict_get (tool_node state) "result" PNone) = true)
  ∧ (py_in_strs action ["validate"; "replace"; "cancel"] = false → tool_node state = ∅)
  ∧ (is_Some (tool_node state !! "result") ↔ action = PStr "replace" ∨ action = PStr "cancel").
Proof.
  intros Haction. split_and!.
  - intros ->. unfold tool_node. by rewrite Haction.
  - intros ->. unfold tool_node. by rewrite Haction.
  - intros ->. unfold tool_node. by rewrite Haction.
  - intros [-> | ->]; unfold tool_node; by rewrite Haction.
  - unfold tool_node. rewrite Haction. cbn [py_in_strs existsb].
    intros Hnone.
    apply orb_false_iff in Hnone as [-> Hnone].
    apply orb_false_iff in Hnone as [-> Hnone].
    by apply orb_false_iff in Hnone as [-> _].
  - rewrite tool_node_result, Haction. unfold destructive, py_in_strs. cbn [existsb].
    rewrite orb_false_r, orb_true_iff, !py_eq_str_true. done.
Qed.


(** C9: no node writes anything but [True] to [validated], so that a
    superstep, and a run of any number of supersteps, that starts in a
    validated state ends in a validated state. *)
Theorem validated_never_reset :
  (∀ llm n state out,
     node_fn json_loads int_of_str llm n state = Ok out →
     out !! "validated" = None ∨ out !! "validated" = Some (PBool true))
  ∧ (∀ gw n k c c',
       supersteps json_loads int_of_str max_steps gw n k c = Ok c' →
       validated (values c) = true →
       validated (values c') = true).
Proof.
  split.
  - intros llm n state out. apply node_fn_validated.
  - intros gw n k c c'. apply supersteps_validated.
Qed.

(** C10: when the reply of the gateway has no [intent], because the JSON
    object lacks the key or because the reply is no JSON object at all, the
    state merged with the planner's decision has the intent that the state
    had before: for the planner itself, which always returns a decision, and
    for the planning step with its guard whenever it returns one. *)
Theorem planner_keeps_intent llm state text :
  llm (planner_prompt state) = Ok text →
  match json_loads text with
  | Some (PDict d) => d !! "intent" = None
  | _ => True
  end →
  (∃ out, planner_agent json_loads llm state = Ok out ∧
          dict_get (out ∪ state) "intent" (PStr "unknown")
          = dict_get state "intent" (PStr "unknown") ∧
          (is_Some (state !! "intent") → (out ∪ state) !! "intent" = state !! "intent"))
  ∧ (∀ out, planner_node json_loads llm state = Ok out →
            dict_get (out ∪ state) "intent" (PStr "unknown")
            = dict_get state "intent" (PStr "unknown") ∧
            (is_Some (state !! "intent") → (out ∪ state) !! "intent" = state !! "intent")).
Proof.
  intros Hllm Hintent.
  pose proof (planner_agent_reply json_loads _ _ _ Hllm) as Hagent.
  assert (∀ out, planner_agent json_loads llm state = Ok out →
            dict_get (out ∪ state) "intent" (PStr "unknown")
            = dict_get state "intent" (PStr "unknown") ∧
            (is_Some (state !! "intent") → (out ∪ state) !! "intent" = state !! "intent"))
    as Hkeep.
  { intros out Hout. rewrite Hagent in Hout. simplify_eq.
    assert ((∃ d, json_loads text = Some (PDict d) ∧ d !! "intent" = None)
            ∨ (match json_loads text with
               | Some (PDict d) => planner_decision state d
               | _ => planner_fallback
               end = planner_fallback)) as [(d & Hd & Hnone)|Hfall].
    { destruct (json_loads text) as [[]|]; eauto. }
    - rewrite Hd. unfold dict_get at 1.
      assert ((planner_decision state d ∪ state) !! "intent"
              = Some (dict_get state "intent" (PStr "unknown"))) as ->.
      { apply lookup_union_Some_l. unfold planner_decision.
        rewrite !lookup_insert_ne, lookup_insert_eq by done.
        unfold dict_get at 1. by rewrite Hnone. }
      split; [done|]. intros [v Hv]. unfold dict_get. by rewrite Hv.
    - rewrite Hfall. unfold dict_get at 1. rewrite lookup_union_r; [done|].
      unfold planner_fallback. by rewrite !lookup_insert_ne, lookup_singleton_ne. }
  split.
  - eexists. split; [done|]. by apply Hkeep.
  - intros out' (out & Hout & [[_ ->]|(_ & _ & reason & _ & ->)])%planner_node_inv.
    + by apply Hkeep.
    + destruct (Hkeep out Hout) as [Hget Hsome].
      assert ((guarded out reason ∪ state) !! "intent" = (out ∪ state) !! "intent") as Heq.
      { by rewrite !lookup_union, guarded_other. }
      unfold dict_get in *. by rewrite Heq.
Qed.

End Claims.

(** ** How a run ends *)

(** X1: a run returns a final state only on a [finish] decision of the
    planner: in every state that [invoke] returns, [next_action] is
    [finish].  Neither a terminal [result] nor the step budget ends a run. *)
Theorem run_returns_only_on_finish
    (json_loads : string → option pyval) (int_of_str : string → option Z) (max_steps : Z)
    (gw : nat → gateway) (recursion_limit : nat) (input state : gmap string pyval) :
  invoke json_loads int_of_str max_steps gw recursion_limit input = Ok state →
  state !! "next_action" = Some (PStr "finish").
Proof.
  intros Hrun. apply (run_loop_returns _ _ _ _ _ _ _ classify _ Hrun).
  cbn [start active entry_point]. left.
Qed.

(** A gateway that answers [finish] to every prompt: the run returns after
    the planning step, with no dispatch, no [result] and no [step_count]. *)
Example finish_ends_the_run :
  invoke sample_loads sample_int 6 (always finish_reply) 25 (request "hello")
  = Ok {[ "user_input" := PStr "hello";
          "intent" := PStr "unknown";
          "intent_reason" := PStr "";
          "next_action" := PStr "finish";
          "assistant_message" := PStr "Could you clarify?";
          "plan_reason" := PStr "" ]}.
Proof. by_items. Qed.

(** ** The templates of prompts.py *)

(** X3: with the templates as prompts.py has them, whatever the model would
    answer, the classifier raises [KeyError] while it renders its prompt,
    the planner raises while it renders its own, both before the gateway is
    called and outside their [try], and every run of the graph ends in the
    [KeyError] of the classifier. *)
Theorem prompts_do_not_render
    (json_loads : string → option pyval) (int_of_str : string → option Z) (max_steps : Z)
    (render : pyval → string → option ascii → string → list (string * pyval) → result string)
    (generate : string → result string) :
  (∀ user_input,
     intent_agent json_loads (rendering_gateway render generate) user_input = Raise KeyError)
  ∧ (∀ state, fails (planner_agent json_loads (rendering_gateway render generate) state))
  ∧ (∀ recursion_limit input,
       invoke json_loads int_of_str max_steps (λ _, rendering_gateway render generate)
         (S recursion_limit) input = Raise KeyError).
Proof.
  assert (∀ user_input,
            intent_agent json_loads (rendering_gateway render generate) user_input
            = Raise KeyError) as Hintent.
  { intros user_input. unfold intent_agent, rendering_gateway, intent_prompt.
    cbn [prompt_kwargs prompt_template template_text].
    by rewrite intent_prompt_raises. }
  split_and!.
  - done.
  - intros state. unfold planner_agent, rendering_gateway, planner_prompt.
    cbn [prompt_kwargs prompt_template template_text].
    apply fails_bind_l, fails_bind_l, planner_prompt_fails.
  - intros limit input. unfold invoke, start, entry_point. cbn [run_loop active].
    unfold superstep. cbn [active values mapM]. unfold run_task at 1.
    cbn [node_fn]. unfold classify_node. by rewrite Hintent.
Qed.

(** ** Runs of the graph *)

Lemma tool_node_confirmation (state : gmap string pyval) (v : pyval) :
  tool_node state !! "result" = Some v → confirmation v.
Proof.
  unfold tool_node, validate_ownership_tool. repeat case_match; try done.
  - intros Hv. left. unfold dict_get, replace_card_tool in *.
    rewrite lookup_singleton_eq in *. by simplify_eq.
  - intros Hv. right. unfold dict_get, cancel_card_tool in *.
    rewrite lookup_singleton_eq in *. by simplify_eq.
Qed.


Section Runs.

Variable json_loads : string → option pyval.
Variable int_of_str : string → option Z.
Variable max_steps : Z.

Implicit Types (llm : gateway) (gw : nat → gateway) (state input out : gmap string pyval).
Implicit Types (c : config) (n m : node).

Local Abbreviation node_fn' := (node_fn json_loads int_of_str).
Local Abbreviation run_task' := (run_task json_loads int_of_str max_steps).
Local Abbreviation superstep' := (superstep json_loads int_of_str max_steps).
Local Abbreviation supersteps' := (supersteps json_loads int_of_str max_steps).
Local Abbreviation run_loop' := (run_loop json_loads int_of_str max_steps).
Local Abbreviation invoke' := (invoke json_loads int_of_str max_steps).

Lemma run_loop_supersteps gw (limit k : nat) c state :
  run_loop' gw limit k c = Ok state →
  ∃ (i : nat) c', (i < limit)%nat ∧ supersteps' gw i k c = Ok c' ∧
                  active c' = [] ∧ values c' = state.
Proof.
  revert k c. induction limit as [|limit IH]; intros k c; cbn [run_loop]; [done|].
  destruct (active c) as [|n ns] eqn:Hactive.
  - intros [= <-]. exists 0%nat, c. split_and!; [lia | done..].
  - destruct (superstep' (gw k) c) as [c1|e] eqn:Hstep; bind_simpl; [|done].
    intros (i & c' & ? & Hrun & ? & ?)%IH. exists (S i), c'.
    cbn [supersteps]. rewrite Hstep. bind_simpl. split_and!; [lia | done..].
Qed.

Lemma supersteps_invariant (P : config → Prop) gw :
  (∀ (j : nat) c c', P c → superstep' (gw j) c = Ok c' → P c') →
  ∀ (i k : nat) c c', P c → supersteps' gw i k c = Ok c' → P c'.
Proof.
  intros Hstep i. induction i as [|i IH]; intros k c c' Hc; cbn [supersteps].
  - by intros [= <-].
  - destruct (superstep' (gw k) c) as [c1|e] eqn:Hc1; bind_simpl; [|done].
    apply IH. by eapply Hstep.
Qed.

Lemma invoke_invariant (P : config → Prop) gw (limit : nat) input state :
  (∀ (j : nat) c c', P c → superstep' (gw j) c = Ok c' → P c') →
  P (start input) →
  invoke' gw limit input = Ok state →
  ∃ c, P c ∧ active c = [] ∧ values c = state.
Proof.
  intros Hstep Hstart (i & c & _ & Hrun & ? & ?)%run_loop_supersteps.
  exists c. split_and!; [|done..]. by eapply supersteps_invariant.
Qed.

(** *** Who writes what *)

Lemma node_fn_writer llm n state out key :
  node_fn' llm n state = Ok out → is_Some (out !! key) →
  (key ∈ node_keys tool → n = tool) ∧ (key ∈ node_keys step → n = step)
  ∧ (key = "next_action" → n = planner) ∧ (key = "intent_reason" → n = classify).
Proof.
  intros Hout Hkey. pose proof (node_fn_keys _ _ _ _ _ _ _ Hout Hkey) as Hn.
  destruct n; unfold node_keys in *; split_and!; set_solver.
Qed.

Lemma superstep_planner_runs llm c c' :
  superstep' llm c = Ok c' → planner ∈ active c →
  ∃ out a, planner_node json_loads llm (values c) = Ok out ∧
           out !! "next_action" = Some a ∧
           values c' !! "next_action" = Some a ∧
           (tool ∈ active c' ↔ a ≠ PStr "finish").
Proof.
  intros Hstep Hp. destruct (superstep_task _ _ _ _ _ _ _ Hstep Hp) as [t Ht].
  pose proof (run_task_triggers _ _ _ _ _ _ _ Ht) as (dest & Hroute & Htr).
  apply run_task_inv in Ht as Hinv. destruct Hinv as [Hout _]. cbn [node_fn] in Hout.
  destruct (planner_node_next_action _ _ _ _ Hout) as [a Ha].
  exists (writes t), a. split_and!; [done..| |].
  - by apply (superstep_lookup_node _ _ _ _ _ _ planner (writes t) _ _ Hstep Hp).
  - unfold route_after_planner, dict_get in Hroute.
    rewrite (lookup_union_Some_l _ _ _ _ Ha) in Hroute.
    split.
    + intros Htool ->. cbn in Hroute. simplify_eq.
      apply (superstep_active _ _ _ _ _ _ _ Hstep) in Htool as (n & t' & Hn & Ht' & Hm).
      pose proof (run_task_triggers _ _ _ _ _ _ _ Ht') as Htr'.
      destruct n.
      * rewrite Htr' in Hm. set_solver.
      * rewrite Ht in Ht'. simplify_eq. cbn in Htr. rewrite Htr in Hm. set_solver.
      * destruct Htr' as (dest & [->| ->]%route_after_tool_dest & Htr');
          rewrite Htr' in Hm; set_solver.
      * rewrite Htr' in Hm. set_solver.
    + intros Hfin. destruct (py_eq_str a "finish") eqn:Heq.
      { by apply py_eq_str_true in Heq. }
      simplify_eq. apply (superstep_active _ _ _ _ _ _ _ Hstep).
      exists planner, t. split_and!; [done..|]. rewrite Htr. set_solver.
Qed.

Lemma superstep_planner_idle llm c c' :
  superstep' llm c = Ok c' → planner ∉ active c →
  values c' !! "next_action" = values c !! "next_action" ∧ tool ∉ active c'.
Proof.
  intros Hstep Hp. split.
  - destruct (superstep_lookup_cases _ _ _ _ _ _ "next_action" Hstep)
      as [|(n & out & v & Hn & Hout & Hv & _)]; [done|].
    destruct (node_fn_writer _ _ _ _ _ Hout (mk_is_Some _ _ Hv)) as (_ & _ & Hw & _).
    by rewrite Hw in Hn.
  - intros Htool. by destruct (superstep_tool_triggered _ _ _ _ _ _ Hstep Htool).
Qed.

Lemma superstep_result llm c c' v :
  superstep' llm c = Ok c' → values c' !! "result" = Some v →
  values c !! "result" = Some v
  ∨ (tool ∈ active c ∧ tool_node (values c) !! "result" = Some v).
Proof.
  intros Hstep Hv.
  destruct (superstep_lookup_cases _ _ _ _ _ _ "result" Hstep)
    as [Heq|(n & out & v' & Hn & Hout & Hv' & Hc')].
  - left. by rewrite <-Heq.
  - rewrite Hc' in Hv. simplify_eq. right.
    destruct (node_fn_writer _ _ _ _ _ Hout (mk_is_Some _ _ Hv')) as (Hw & _).
    assert (n = tool) as -> by (apply Hw; unfold node_keys; set_solver).
    cbn in Hout. by simplify_eq.
Qed.

(** *** A result is a confirmation of a validated request *)

Lemma dispatch_safe_start input : input !! "result" = None → dispatch_safe (start input).
Proof.
  intros Hr. split; cbn [start active values entry_point].
  - intros Htool. set_solver.
  - intros v Hv. by rewrite Hr in Hv.
Qed.

Lemma dispatch_safe_superstep llm c c' :
  dispatch_safe c → superstep' llm c = Ok c' → dispatch_safe c'.
Proof.
  intros [Hdispatch Hresult] Hstep. split.
  - by apply (superstep_tool_safe _ _ _ _ _ _ Hstep).
  - intros v [Hv|[Htool Hv]]%(superstep_result _ _ _ _ Hstep).
    + destruct (Hresult v Hv) as [? ?]. split; [done|].
      by apply (superstep_validated _ _ _ _ _ _ Hstep).
    + split; [by eapply tool_node_confirmation|].
      apply (superstep_validated _ _ _ _ _ _ Hstep). apply Hdispatch; [done|].
      apply tool_node_result. by eauto.
Qed.

Lemma invoke_completed gw (limit : nat) input state :
  input !! "result" = None → invoke' gw limit input = Ok state → completed state.
Proof.
  intros Hr Hrun.
  destruct (invoke_invariant dispatch_safe gw limit input state) as (c & Hc & _ & <-);
    [|by apply dispatch_safe_start|done|by apply safe_result].
  intros j c1 c2. apply dispatch_safe_superstep.
Qed.

(** X5: in a run that starts from a state without [result], in every
    configuration that the run reaches and in the state that [invoke]
    returns, a [result], when there is one, is one of the two texts of the
    tools and the state is validated: no replacement and no cancellation is
    confirmed for a request whose ownership was not validated. *)
Theorem result_requires_validation gw input :
  input !! "result" = None →
  (∀ (i : nat) c, supersteps' gw i 0 (start input) = Ok c → completed (values c))
  ∧ (∀ (limit : nat) state, invoke' gw limit input = Ok state → completed state).
Proof.
  intros Hr. split.
  - intros i c Hrun. apply safe_result.
    eapply (supersteps_invariant dispatch_safe); [|by apply dispatch_safe_start|done].
    intros j c1 c2. apply dispatch_safe_superstep.
  - intros limit state. by apply invoke_completed.
Qed.

(** *** What a run leaves alone *)

Lemma superstep_keeps llm c c' key :
  superstep' llm c = Ok c' →
  (key ∉ written_keys → values c' !! key = values c !! key)
  ∧ (is_Some (values c !! key) → is_Some (values c' !! key)).
Proof.
  intros Hstep. split.
  - intros Hkey. apply (superstep_lookup_frame _ _ _ _ _ _ _ Hstep).
    intros n _ Hn. apply Hkey. unfold written_keys. destruct n; set_solver.
  - intros Hsome.
    destruct (superstep_lookup_cases _ _ _ _ _ _ key Hstep)
      as [->|(n & out & v & _ & _ & _ & ->)]; [done | by eauto].
Qed.

Lemma invoke_keeps gw (limit : nat) input state key :
  invoke' gw limit input = Ok state →
  (key ∉ written_keys → state !! key = input !! key)
  ∧ (is_Some (input !! key) → is_Some (state !! key)).
Proof.
  intros Hrun.
  destruct (invoke_invariant
              (λ c, ∀ key, (key ∉ written_keys → values c !! key = input !! key)
                           ∧ (is_Some (input !! key) → is_Some (values c !! key)))
              gw limit input state) as (c & Hc & _ & <-); [| |done|done].
  - intros j c1 c2 Hc1 Hstep key'.
    destruct (superstep_keeps _ _ _ key' Hstep) as [Hframe Hsome].
    destruct (Hc1 key') as [Hframe1 Hsome1]. split.
    + intros Hkey. by rewrite Hframe, Hframe1.
    + auto.
  - done.
Qed.

(** [state.update(result_state)] in the state that the run was given *)
Lemma invoke_update gw (limit : nat) input state :
  invoke' gw limit input = Ok state → state ∪ input = state.
Proof.
  intros Hrun. apply map_eq. intros key. rewrite lookup_union.
  destruct (state !! key) as [v|] eqn:Hv; [by rewrite union_Some_l|].
  destruct (input !! key) as [u|] eqn:Hu; [|done].
  destruct (invoke_keeps _ _ _ _ key Hrun) as [_ Hsome].
  destruct Hsome as [? ?]; [by eauto | by simplify_eq].
Qed.

Lemma written_keys_CardState : written_keys ⊆ CardState.
Proof. unfold written_keys, node_keys, CardState. set_solver. Qed.

(** X6: in a run from an input whose keys are keys of [CardState], in the
    state that [invoke] returns every key outside the nine that the nodes
    write has the value that it had in the input, [user_input] and
    [messages] among them; every key of the input is still there, a run
    adds and overwrites, it never removes; and the keys of the state are
    keys of [CardState]. *)
Theorem run_keeps_other_keys gw (limit : nat) input state :
  dom input ⊆ CardState →
  invoke' gw limit input = Ok state →
  (∀ key, key ∉ written_keys → state !! key = input !! key)
  ∧ (∀ key, is_Some (input !! key) → is_Some (state !! key))
  ∧ state !! "user_input" = input !! "user_input"
  ∧ state !! "messages" = input !! "messages"
  ∧ dom state ⊆ CardState.
Proof.
  intros Hschema Hrun. split_and!.
  - intros key. apply (invoke_keeps _ _ _ _ key Hrun).
  - intros key. apply (invoke_keeps _ _ _ _ key Hrun).
  - apply (invoke_keeps _ _ _ _ _ Hrun). unfold written_keys, node_keys. set_solver.
  - apply (invoke_keeps _ _ _ _ _ Hrun). unfold written_keys, node_keys. set_solver.
  - intros key Hkey. destruct (decide (key ∈ written_keys)) as [Hw|Hw].
    + by apply written_keys_CardState.
    + apply Hschema. apply elem_of_dom. apply elem_of_dom in Hkey.
      by rewrite <-(proj1 (invoke_keeps _ _ _ _ key Hrun) Hw).
Qed.

(** *** The classifier *)

Lemma superstep_no_classify llm c c' : superstep' llm c = Ok c' → classify ∉ active c'.
Proof.
  intros Hstep (n & t & _ & Ht & Hm)%(superstep_active _ _ _ _ _ _ _ Hstep).
  pose proof (run_task_triggers _ _ _ _ _ _ _ Ht) as Htr.
  destruct n; [rewrite Htr in Hm; set_solver| | |rewrite Htr in Hm; set_solver].
  - destruct Htr as (dest & [->| ->]%route_after_planner_dest & Htr);
      rewrite Htr in Hm; set_solver.
  - destruct Htr as (dest & [->| ->]%route_after_tool_dest & Htr);
      rewrite Htr in Hm; set_solver.
Qed.

Lemma classify_node_keys llm state cls :
  classify_node json_loads llm state = Ok cls →
  is_Some (cls !! "intent") ∧ is_Some (cls !! "intent_reason").
Proof.
  unfold classify_node.
  destruct (llm (intent_prompt (dict_get state "user_input" (PStr "")))) as [text|e]
    eqn:Hllm.
  - rewrite (intent_agent_reply _ _ _ _ Hllm). intros [= <-].
    destruct (json_loads text) as [[]|]; unfold intent_fallback;
      by rewrite lookup_insert_eq, lookup_insert_ne, lookup_singleton_eq.
  - unfold intent_agent. by rewrite Hllm.
Qed.

(** X7: the classifier runs in the first superstep and in no other, and the
    [intent_reason] of the state that [invoke] returns is the one that the
    classifier gave for the input state in that first superstep. *)
Theorem classifier_runs_once gw input :
  (∀ (i : nat) c, supersteps' gw (S i) 0 (start input) = Ok c → classify ∉ active c)
  ∧ (∀ (limit : nat) state,
       invoke' gw limit input = Ok state →
       ∃ cls, classify_node json_loads (gw 0%nat) input = Ok cls ∧
              is_Some (cls !! "intent_reason") ∧
              state !! "intent_reason" = cls !! "intent_reason").
Proof.
  split.
  - intros i c (c1 & _ & Hlast)%supersteps_last. by eapply superstep_no_classify.
  - intros limit state Hrun. unfold invoke in Hrun.
    destruct limit as [|limit]; [done|].
    change (superstep' (gw 0%nat) (start input) ≫= run_loop' gw limit 1 = Ok state) in Hrun.
    destruct (superstep' (gw 0%nat) (start input)) as [c1|e] eqn:Hfirst;
      revert Hrun; bind_simpl; [|done].
    intros Hrun.
    assert (classify ∈ active (start input)) as Hc by (cbn; left).
    destruct (superstep_task _ _ _ _ _ _ _ Hfirst Hc) as [t Ht].
    apply run_task_inv in Ht as [Hcls _]. cbn [node_fn start values] in Hcls.
    destruct (classify_node_keys _ _ _ Hcls) as [_ [r Hr]].
    exists (writes t). split_and!; [done | by eauto |].
    pose proof (superstep_lookup_node _ _ _ _ _ _ classify _ _ _ Hfirst Hc Hcls Hr) as Hc1.
    apply run_loop_supersteps in Hrun as (i & c & _ & Hrest & _ & <-).
    rewrite Hr, <-Hc1.
    refine (proj2 (supersteps_invariant
              (λ c, (classify ∉ active c) ∧ values c !! "intent_reason" = values c1 !! "intent_reason")
              gw _ i 1%nat c1 c _ Hrest)).
    + intros j c2 c3 [Hno Hkeep] Hstep. split; [by eapply superstep_no_classify|].
      rewrite <-Hkeep. apply (superstep_lookup_frame _ _ _ _ _ _ _ Hstep).
      intros n Hn. destruct n; unfold node_keys; set_solver.
    + split; [by eapply superstep_no_classify | done].
Qed.

(** *** How a run fails *)

Lemma mapM_Raise {A B} (f : A → result B) (l : list A) (e : exn) :
  mapM f l = Raise e → ∃ x, x ∈ l ∧ f x = Raise e.
Proof.
  induction l as [|x l IH]; cbn; [done|].
  destruct (f x) as [t|e'] eqn:Hx; bind_simpl.
  - destruct (mapM f l) as [ts|e'] eqn:Hl; bind_simpl; [done|].
    intros [= ->]. destruct IH as (y & ? & ?); [done|]. exists y. split; [by right | done].
  - intros [= ->]. exists x. split; [left | done].
Qed.

Lemma planner_agent_Raise llm state e :
  planner_agent json_loads llm state = Raise e → llm (planner_prompt state) = Raise e.
Proof.
  destruct (llm (planner_prompt state)) as [text|e'] eqn:Hllm.
  - by rewrite (planner_agent_reply _ _ _ _ Hllm).
  - rewrite (planner_agent_gateway_error _ _ _ _ Hllm). by intros [= ->].
Qed.

Lemma planner_node_Raise llm state e :
  planner_node json_loads llm state = Raise e →
  llm (planner_prompt state) = Raise e
  ∨ (e = TypeError ∧ validated state = false ∧
     ∃ out, planner_agent json_loads llm state = Ok out ∧ unguardable out).
Proof.
  unfold planner_node.
  destruct (planner_agent json_loads llm state) as [out|e'] eqn:Hout; bind_simpl.
  - fold (destructive (dict_get out "next_action" PNone)). fold (validated state).
    destruct (destructive _ && negb _) eqn:Hcond; [|done].
    apply andb_true_iff in Hcond as [Hd Hv%negb_true_iff].
    unfold dict_get at 1. rewrite lookup_insert_ne by done.
    fold (dict_get out "plan_reason" (PStr "")).
    destruct (dict_get out "plan_reason" (PStr "")) as [| | | |reason| |] eqn:Hr;
      cbn; try done; intros [= <-]; right; (split_and!; [done..|]);
      exists out; (split; [done|]); (split; [done|]); intros reason; by rewrite Hr.
  - intros [= ->]. left. by apply planner_agent_Raise.
Qed.

Lemma classify_node_Raise llm state e :
  classify_node json_loads llm state = Raise e →
  llm (intent_prompt (dict_get state "user_input" (PStr ""))) = Raise e.
Proof.
  unfold classify_node, intent_agent.
  destruct (llm (intent_prompt (dict_get state "user_input" (PStr "")))); bind_simpl;
    [done | by intros [= ->]].
Qed.

(** X17: the two agents raise what the call of the gateway raises and
    nothing else, whatever the reply.  A reply of the planner that is JSON
    but no object, an array, a number, a string or [null], is answered like
    a text that is no JSON, by the fixed decision [finish]; and a decision
    of the planner always has [next_action], [assistant_message] and
    [plan_reason], and an [intent] exactly when the reply was a JSON
    object. *)
Theorem agents_raise_only_gateway_errors llm state (user_input : pyval) :
  (∀ e, planner_agent json_loads llm state = Raise e ↔ llm (planner_prompt state) = Raise e)
  ∧ (∀ e, intent_agent json_loads llm user_input = Raise e
          ↔ llm (intent_prompt user_input) = Raise e)
  ∧ (∀ text, llm (planner_prompt state) = Ok text →
             ∃ out, planner_agent json_loads llm state = Ok out
                    ∧ is_Some (out !! "next_action")
                    ∧ is_Some (out !! "assistant_message")
                    ∧ is_Some (out !! "plan_reason")
                    ∧ (unusable (json_loads text) → out = planner_fallback)
                    ∧ (is_Some (out !! "intent") ↔ ¬ unusable (json_loads text))).
Proof.
  split_and!.
  - intros e. split; [apply planner_agent_Raise | apply planner_agent_gateway_error].
  - intros e. unfold intent_agent.
    destruct (llm (intent_prompt user_input)) as [text|e']; bind_simpl;
      split; intros [= ->]; done.
  - intros text Hllm. eexists. split; [by apply planner_agent_reply|].
    destruct (json_loads text) as [[| | | | | |d]|]; cbn [unusable];
      unfold planner_fallback, planner_decision;
      rewrite ?lookup_insert_eq, ?lookup_insert_ne, ?lookup_singleton_eq,
        ?lookup_singleton_ne, ?lookup_insert_eq by done;
      (split_and!; [by eauto..| |]); try done;
      try (split; [by intros [? ?] | by intros []]).
    split; [by intros _ [] | by eauto].
Qed.

Lemma run_task_Raise llm state n k e :
  step_count_is state k →
  run_task' llm state n = Raise e →
  (∃ p, llm p = Raise e)
  ∨ (e = TypeError ∧ validated state = false ∧
     ∃ out, planner_agent json_loads llm state = Ok out ∧ unguardable out).
Proof.
  intros Hk. unfold run_task. destruct n; cbn [node_fn branches].
  - destruct (classify_node json_loads llm state) as [w|e'] eqn:Hw; bind_simpl; [done|].
    intros [= ->]. left. eexists. by eapply classify_node_Raise.
  - destruct (planner_node json_loads llm state) as [w|e'] eqn:Hw; bind_simpl.
    + unfold route_after_planner. by case_match.
    + intros [= ->]. apply planner_node_Raise in Hw as [?|?]; eauto.
  - bind_simpl. unfold route_after_tool. case_match; [done|].
    assert (dict_get (tool_node state ∪ state) "step_count" (PInt 0) = PInt k) as ->.
    { unfold dict_get. rewrite lookup_union_r; [done|].
      apply eq_None_not_Some. intros Hsome.
      pose proof (node_fn_keys json_loads int_of_str llm tool state _ _ eq_refl Hsome) as Hkey.
      unfold node_keys in Hkey. set_solver. }
    cbn [py_int]. bind_simpl. by case_match.
  - unfold step_node. rewrite Hk. by cbn.
Qed.

Lemma orderly_start input k : step_count_is input k → orderly (start input).
Proof.
  intros Hk. split; cbn [start active values entry_point].
  - apply NoDup_singleton.
  - set_solver.
  - by exists k.
Qed.

Lemma orderly_superstep llm c c' : orderly c → superstep' llm c = Ok c' → orderly c'.
Proof.
  intros [Hdup Hentry [k Hk]] Hstep. split.
  - apply superstep_inv in Hstep as (tasks & w & _ & _ & ->). apply NoDup_scheduled.
  - intros Hc. by destruct (superstep_no_classify _ _ _ Hstep).
  - destruct (decide (step ∈ active c)) as [Hs|Hs].
    + destruct (superstep_step_runs _ _ _ _ _ _ Hstep Hs) as (k1 & _ & Hsc).
      exists (k1 + 1). unfold step_count_is, dict_get. by rewrite Hsc.
    + exists k. unfold step_count_is, dict_get in *.
      by rewrite (superstep_step_idle _ _ _ _ _ _ Hstep Hs).
Qed.

Lemma superstep_Raise llm c e :
  orderly c → superstep' llm c = Raise e →
  ∃ n, n ∈ active c ∧ run_task' llm (values c) n = Raise e.
Proof.
  intros [Hdup Hentry _]. unfold superstep.
  destruct (mapM (run_task' llm (values c)) (active c)) as [tasks|e'] eqn:Htasks; bind_simpl.
  - apply mapM_Ok in Htasks.
    destruct (merge_writes_Ok json_loads int_of_str (active c) tasks) as (w & -> & _);
      [|done..|done].
    eapply Forall2_impl; [done|]. intros n t [Hout _]%run_task_inv key.
    by eapply node_fn_keys.
  - intros [= ->]. by apply mapM_Raise.
Qed.

(** X8: when the [step_count] of the input state is absent or an integer,
    [invoke] fails in three ways only: the limit on the supersteps is
    reached; the gateway raised the exception at some prompt; or the guard
    met, in a state that is not validated, a destructive decision whose
    rationale is no string, and raised [TypeError].  In particular no two
    nodes write one key in a superstep, and neither the step counter nor
    the router fails to read the count. *)
Theorem run_fails_only_by gw (limit : nat) input k e :
  step_count_is input k →
  invoke' gw limit input = Raise e →
  e = GraphRecursionError
  ∨ (∃ (i : nat) p, gw i p = Raise e)
  ∨ (e = TypeError ∧
     ∃ (i : nat) state out, planner_agent json_loads (gw i) state = Ok out ∧
                            validated state = false ∧ unguardable out).
Proof.
  intros Hk. unfold invoke. generalize (orderly_start input k Hk).
  generalize (start input) 0%nat. clear Hk. intros c j. revert j c.
  induction limit as [|limit IH]; intros j c Hc; cbn [run_loop].
  { intros [= <-]. by left. }
  destruct (active c) as [|n ns] eqn:Hactive; [done|].
  - destruct (superstep' (gw j) c) as [c'|e'] eqn:Hstep; bind_simpl.
    + apply IH. by eapply orderly_superstep.
    + intros [= ->]. right.
      destruct (superstep_Raise _ _ _ Hc Hstep) as (m & _ & Hm).
      destruct (orderly_count _ Hc) as [k' Hk'].
      destruct (run_task_Raise _ _ _ _ _ Hk' Hm) as [[p Hp]|(-> & Hv & out & Hout & Hbad)].
      * left. by exists j, p.
      * right. split; [done|]. by exists j, (values c), out.
Qed.

(** *** A run that ends at the first planning step *)

Lemma scheduled_nil : scheduled [] = [].
Proof. reflexivity. Qed.

Lemma scheduled_singleton n : scheduled [n] = [n].
Proof. by destruct n. Qed.

Lemma superstep_single llm state n t :
  run_task' llm state n = Ok t →
  superstep' llm (Config state [n]) = Ok (Config (writes t ∪ state) (scheduled (triggers t))).
Proof.
  intros Ht. unfold superstep. cbn [active values mapM]. rewrite Ht. bind_simpl.
  cbn [fmap list_fmap merge_writes]. bind_simpl.
  rewrite decide_True by apply map_disjoint_empty_r.
  bind_simpl. cbn [mbind list_bind]. by rewrite (right_id ∅ (∪)), app_nil_r.
Qed.


(** *** A run that validates and ends *)

Lemma superstep_pair llm state n m t u :
  run_task' llm state n = Ok t → run_task' llm state m = Ok u →
  writes t ##ₘ writes u →
  superstep' llm (Config state [n; m])
  = Ok (Config (writes t ∪ writes u ∪ state) (scheduled (triggers t ++ triggers u))).
Proof.
  intros Ht Hu Hdisj. unfold superstep. cbn [active values mapM]. rewrite Ht. bind_simpl.
  rewrite Hu. bind_simpl. cbn [fmap list_fmap merge_writes]. bind_simpl.
  rewrite decide_True by apply map_disjoint_empty_r. bind_simpl.
  rewrite decide_True by (by rewrite (right_id_L ∅ (∪))).
  bind_simpl. cbn [mbind list_bind]. by rewrite (right_id_L ∅ (∪)), app_nil_r.
Qed.

Lemma planner_node_frame llm state out key :
  planner_node json_loads llm state = Ok out → key ∉ node_keys planner →
  (out ∪ state) !! key = state !! key.
Proof.
  intros Hout Hkey. apply lookup_union_r, eq_None_not_Some. intros Hsome.
  by pose proof (node_fn_keys json_loads int_of_str llm planner _ _ _ Hout Hsome).
Qed.

Lemma run_task_planner_finish llm state out :
  planner_node json_loads llm state = Ok out →
  out !! "next_action" = Some (PStr "finish") →
  run_task' llm state planner = Ok (Task out []).
Proof.
  intros Hout Hfin. unfold run_task. cbn [node_fn branches]. rewrite Hout. bind_simpl.
  unfold route_after_planner, dict_get. by rewrite (lookup_union_Some_l _ _ _ _ Hfin).
Qed.

(** X10: from an input without [validated], [result] and [step_count], when
    the decision that leaves the planning step is [validate] in every state
    that is not validated and [finish] in every validated one, the run is
    over after five supersteps and [invoke] returns at every limit from six
    on, at every step budget, zero and the negative ones included: the
    ownership is validated, the count is 1 and there is no result. *)
Theorem validation_then_finish_returns gw (limit : nat) input cls :
  input !! "validated" = None → input !! "result" = None → input !! "step_count" = None →
  classify_node json_loads (gw 0%nat) input = Ok cls →
  (∀ (i : nat) state,
     validated state = false →
     ∃ out, planner_node json_loads (gw i) state = Ok out ∧
            out !! "next_action" = Some (PStr "validate")) →
  (∀ (i : nat) state,
     validated state = true →
     ∃ out, planner_node json_loads (gw i) state = Ok out ∧
            out !! "next_action" = Some (PStr "finish")) →
  ∃ state,
    invoke' gw (6 + limit) input = Ok state
    ∧ state !! "validated" = Some (PBool true)
    ∧ state !! "validation_reason" = Some (PStr "Mock validation passed.")
    ∧ state !! "result" = None
    ∧ state !! "step_count" = Some (PInt 1)
    ∧ state !! "next_action" = Some (PStr "finish").
Proof.
  intros Hv Hr Hk Hcls Hbefore Hafter.
  assert (∀ key, key ∉ node_keys classify → (cls ∪ input) !! key = input !! key) as Hcls_frame.
  { intros key Hkey. apply lookup_union_r, eq_None_not_Some. intros Hsome.
    by pose proof (node_fn_keys json_loads int_of_str (gw 0%nat) classify _ _ _ Hcls Hsome). }
  set (state1 := cls ∪ input).
  destruct (Hbefore 1%nat state1) as (out1 & Hout1 & Hna1).
  { unfold validated, dict_get, state1. rewrite Hcls_frame, Hv; [done|].
    unfold node_keys. set_solver. }
  set (state2 := out1 ∪ state1).
  assert (∀ key, key ∈ node_keys tool ∪ node_keys step → state2 !! key = input !! key)
    as Hframe2.
  { intros key Hkey. unfold state2.
    rewrite (planner_node_frame _ _ _ _ Hout1), Hcls_frame; [done|..];
      unfold node_keys in *; set_solver. }
  assert (tool_node state2 = validate_ownership_tool state2) as Htool.
  { unfold tool_node, dict_get, state2. by rewrite (lookup_union_Some_l _ _ _ _ Hna1). }
  set (state3 := tool_node state2 ∪ state2).
  assert (state3 !! "validated" = Some (PBool true)) as Hv3.
  { unfold state3. rewrite Htool. by apply lookup_union_Some_l. }
  assert (state3 !! "validation_reason" = Some (PStr "Mock validation passed.")) as Hvr3.
  { unfold state3. rewrite Htool. by apply lookup_union_Some_l. }
  assert (state3 !! "result" = None) as Hr3.
  { unfold state3. rewrite Htool. rewrite lookup_union_r by done.
    rewrite Hframe2, Hr; [done|]. unfold node_keys. set_solver. }
  assert (state3 !! "step_count" = None) as Hk3.
  { unfold state3. rewrite Htool. rewrite lookup_union_r by done.
    rewrite Hframe2, Hk; [done|]. unfold node_keys. set_solver. }
  assert (run_task' (gw 2%nat) state2 tool
          = Ok (Task (tool_node state2)
                  (step :: if max_steps <=? 0 then [] else [planner]))) as Htask2.
  { unfold run_task. cbn [node_fn branches]. bind_simpl. fold state3.
    unfold route_after_tool, dict_get. rewrite Hr3, Hk3. cbn [py_truthy py_int]. bind_simpl.
    by destruct (max_steps <=? 0). }
  assert (step_node int_of_str state3 = Ok {[ "step_count" := PInt 1 ]}) as Hstep3.
  { unfold step_node, dict_get. by rewrite Hk3. }
  assert (run_task' (gw 3%nat) state3 step = Ok (Task {[ "step_count" := PInt 1 ]} [planner]))
    as Htask3.
  { unfold run_task. cbn [node_fn branches]. rewrite Hstep3. by bind_simpl. }
  assert (∀ llm state out,
            planner_node json_loads llm state = Ok out →
            out ##ₘ ({[ "step_count" := PInt 1 ]} : gmap string pyval)) as Hdisj.
  { intros llm state out Hout. apply map_disjoint_singleton_r, eq_None_not_Some.
    intros Hsome.
    by pose proof (node_fn_keys json_loads int_of_str llm planner _ _ _ Hout Hsome). }
  assert (∀ (i : nat) state,
            state !! "validated" = Some (PBool true) → state !! "result" = None →
            state !! "validation_reason" = Some (PStr "Mock validation passed.") →
            state !! "step_count" = Some (PInt 1) →
            ∃ final,
              run_loop' gw (S (S limit)) i (Config state [planner]) = Ok final
              ∧ final !! "validated" = Some (PBool true)
              ∧ final !! "validation_reason" = Some (PStr "Mock validation passed.")
              ∧ final !! "result" = None
              ∧ final !! "step_count" = Some (PInt 1)
              ∧ final !! "next_action" = Some (PStr "finish")) as Hlast.
  { intros i state Hvs Hrs Hvrs Hks.
    destruct (Hafter i state) as (out & Hout & Hfin).
    { unfold validated, dict_get. by rewrite Hvs. }
    exists (out ∪ state). cbn [run_loop active].
    rewrite (superstep_single _ _ _ _ (run_task_planner_finish _ _ _ Hout Hfin)).
    bind_simpl. cbn [writes triggers]. rewrite scheduled_nil.
    split_and!.
    - done.
    - rewrite (planner_node_frame _ _ _ _ Hout); [done | unfold node_keys; set_solver].
    - rewrite (planner_node_frame _ _ _ _ Hout); [done | unfold node_keys; set_solver].
    - rewrite (planner_node_frame _ _ _ _ Hout); [done | unfold node_keys; set_solver].
    - rewrite (planner_node_frame _ _ _ _ Hout); [done | unfold node_keys; set_solver].
    - by apply lookup_union_Some_l. }
  unfold invoke, start, entry_point. cbn [Nat.add run_loop active].
  rewrite (superstep_single _ _ _ (Task cls [planner])).
  2:{ unfold run_task. cbn [node_fn branches]. rewrite Hcls. by bind_simpl. }
  bind_simpl. cbn [writes triggers]. rewrite scheduled_singleton. cbn [run_loop active].
  fold state1. rewrite (superstep_single _ _ _ (Task out1 [tool])).
  2:{ unfold run_task. cbn [node_fn branches]. rewrite Hout1. bind_simpl.
      unfold route_after_planner, dict_get.
      by rewrite (lookup_union_Some_l _ _ _ _ Hna1). }
  bind_simpl. cbn [writes triggers]. rewrite scheduled_singleton. cbn [run_loop active].
  fold state2. rewrite (superstep_single _ _ _ _ Htask2).
  bind_simpl. cbn [writes triggers]. fold state3.
  destruct (max_steps <=? 0).
  - change (scheduled [step]) with [step]. cbn [run_loop active].
    rewrite (superstep_single _ _ _ _ Htask3).
    bind_simpl. cbn [writes triggers]. rewrite scheduled_singleton.
    apply Hlast.
    + by rewrite lookup_union_r.
    + by rewrite lookup_union_r.
    + by rewrite lookup_union_r.
    + by apply lookup_union_Some_l.
  - change (scheduled [step; planner]) with [planner; step]. cbn [run_loop active].
    destruct (Hafter 3%nat state3) as (out3 & Hout3 & Hfin3).
    { unfold validated, dict_get. by rewrite Hv3. }
    rewrite (superstep_pair _ _ _ _ _ _ (run_task_planner_finish _ _ _ Hout3 Hfin3) Htask3).
    2:{ cbn [writes]. by eapply Hdisj. }
    bind_simpl. cbn [writes triggers]. change (scheduled ([] ++ [planner])) with [planner].
    pose proof (Hdisj _ _ _ Hout3) as Hd3.
    assert (∀ key, key ∉ node_keys planner →
              (out3 ∪ {[ "step_count" := PInt 1 ]} ∪ state3) !! key
              = (({[ "step_count" := PInt 1 ]} : gmap string pyval) ∪ state3) !! key)
      as Hframe4.
    { intros key Hkey. rewrite <-(assoc_L (∪)). apply lookup_union_r, eq_None_not_Some.
      intros Hsome.
      by pose proof (node_fn_keys json_loads int_of_str (gw 3%nat) planner _ _ _ Hout3 Hsome). }
    apply Hlast.
    + rewrite Hframe4 by (unfold node_keys; set_solver). by rewrite lookup_union_r.
    + rewrite Hframe4 by (unfold node_keys; set_solver). by rewrite lookup_union_r.
    + rewrite Hframe4 by (unfold node_keys; set_solver). by rewrite lookup_union_r.
    + rewrite Hframe4 by (unfold node_keys; set_solver). by apply lookup_union_Some_l.
Qed.

(** *** What the dispatcher is given *)

(** X11: whenever the dispatcher is triggered in a run, the state holds a
    [next_action], the one that the planning step wrote in the superstep
    before, and it is not [finish]: the dispatcher never falls back on its
    default, and it returns the empty update exactly when the action is
    none of [validate], [replace] and [cancel]. *)
Theorem dispatcher_runs_on_planned_action gw input (i : nat) c :
  supersteps' gw i 0 (start input) = Ok c →
  tool ∈ active c →
  ∃ a, values c !! "next_action" = Some a ∧ a ≠ PStr "finish"
       ∧ (tool_node (values c) = ∅ ↔ py_in_strs a ["validate"; "replace"; "cancel"] = false).
Proof.
  intros Hrun Htool. destruct i as [|i].
  - cbn in Hrun. simplify_eq. cbn in Htool. set_solver.
  - apply supersteps_last in Hrun as (c1 & _ & Hlast).
    destruct (superstep_tool_triggered _ _ _ _ _ _ Hlast Htool) as (Hp & _).
    destruct (superstep_planner_runs _ _ _ Hlast Hp) as (out & a & _ & _ & Ha & Hfin).
    exists a. split_and!; [done | by apply Hfin |].
    unfold tool_node, dict_get. rewrite Ha. cbn [py_in_strs existsb].
    unfold validate_ownership_tool, replace_card_tool, cancel_card_tool.
    destruct (py_eq_str a "validate"); [split; [|done]|].
    { intros Heq. apply (f_equal (λ m : gmap string pyval, m !! "validated")) in Heq.
      by rewrite lookup_insert_eq, lookup_empty in Heq. }
    destruct (py_eq_str a "replace"); [split; [|done]|].
    { intros Heq. apply (f_equal (λ m : gmap string pyval, m !! "result")) in Heq.
      by rewrite lookup_singleton_eq, lookup_empty in Heq. }
    destruct (py_eq_str a "cancel"); [split; [|done]|done].
    intros Heq. apply (f_equal (λ m : gmap string pyval, m !! "result")) in Heq.
    by rewrite lookup_singleton_eq, lookup_empty in Heq.
Qed.

(** *** A gateway that answers a prompt the same way every time *)

Lemma planner_agent_same_prompt llm state state' out out' :
  planner_prompt state = planner_prompt state' →
  planner_agent json_loads llm state = Ok out →
  planner_agent json_loads llm state' = Ok out' →
  out !! "next_action" = out' !! "next_action".
Proof.
  intros Hprompt.
  destruct (llm (planner_prompt state)) as [text|e] eqn:Hllm.
  - rewrite (planner_agent_reply _ _ _ _ Hllm). rewrite Hprompt in Hllm.
    rewrite (planner_agent_reply _ _ _ _ Hllm). intros [= <-] [= <-].
    destruct (json_loads text) as [[]|]; try done;
      unfold planner_decision; by rewrite !lookup_insert_eq.
  - by rewrite (planner_agent_gateway_error _ _ _ _ Hllm).
Qed.

Lemma planner_prompt_validated state state' :
  planner_prompt state = planner_prompt state' → validated state = validated state'.
Proof. unfold planner_prompt, validated. by intros [= _ ->]. Qed.

Lemma planner_node_same_prompt llm state state' out out' :
  planner_prompt state = planner_prompt state' →
  planner_node json_loads llm state = Ok out →
  planner_node json_loads llm state' = Ok out' →
  out !! "next_action" = out' !! "next_action".
Proof.
  intros Hprompt
    (o & Ho & [[Hcond ->]|(Hd & Hv & r & _ & ->)])%planner_node_inv
    (o' & Ho' & [[Hcond' ->]|(Hd' & Hv' & r' & _ & ->)])%planner_node_inv;
    pose proof (planner_agent_same_prompt _ _ _ _ _ Hprompt Ho Ho') as Heq;
    pose proof (planner_prompt_validated _ _ Hprompt) as Hval.
  - done.
  - unfold dict_get in *. rewrite Heq, Hval, Hd', Hv' in Hcond. done.
  - unfold dict_get in *. rewrite <-Heq, <-Hval, Hd, Hv in Hcond'. done.
  - by rewrite !guarded_next_action.
Qed.

Lemma superstep_validated_bool llm c c' b :
  superstep' llm c = Ok c' →
  dict_get (values c) "validated" (PBool false) = PBool b →
  ∃ b', dict_get (values c') "validated" (PBool false) = PBool b' ∧ (b = true → b' = true).
Proof.
  intros Hstep Hb. unfold dict_get in *.
  destruct (superstep_lookup_cases _ _ _ _ _ _ "validated" Hstep)
    as [->|(n & out & v & _ & Hout & Hkey & ->)]; [by eauto|].
  exists true. destruct (node_fn_validated _ _ _ _ _ _ Hout); by simplify_eq.
Qed.

Lemma superstep_prompt llm c c' :
  superstep' llm c = Ok c' →
  dict_get (values c) "validated" (PBool false) = PBool true →
  planner_prompt (values c') = planner_prompt (values c).
Proof.
  intros Hstep Hb. unfold planner_prompt.
  destruct (superstep_validated_bool _ _ _ _ Hstep Hb) as (b' & -> & Hb').
  rewrite Hb, Hb' by done. unfold dict_get.
  destruct (superstep_keeps _ _ _ "user_input" Hstep) as [-> _]; [|done].
  unfold written_keys, node_keys. set_solver.
Qed.

Lemma settled_start llm input b :
  input !! "result" = None →
  dict_get input "validated" (PBool false) = PBool b →
  settled json_loads llm (start input).
Proof.
  intros Hr Hb. split; cbn [start active values entry_point].
  - by exists b.
  - rewrite Hr. intros [Htool|[? ?]]; [set_solver | done].
  - rewrite Hr. by intros [? ?].
Qed.

Lemma settled_keep llm c c' a :
  settled json_loads llm c → superstep' llm c = Ok c' →
  tool ∈ active c ∨ is_Some (values c !! "result") →
  values c !! "next_action" = Some a → destructive a = true →
  values c' !! "next_action" = Some a
  ∧ validated (values c') = true
  ∧ planner_prompt (values c') = planner_prompt (values c).
Proof.
  intros [[b Hb] Haction _] Hstep Hpre Ha Hd.
  destruct (Haction Hpre a Ha Hd) as [Hv Hstable].
  assert (b = true) as ->.
  { unfold validated in Hv. rewrite Hb in Hv. done. }
  split_and!.
  - destruct (decide (planner ∈ active c)) as [Hp|Hp].
    + destruct (superstep_planner_runs _ _ _ Hstep Hp) as (out & a0 & Hout & Ha0 & -> & _).
      rewrite <-Ha0. by eapply Hstable.
    + destruct (superstep_planner_idle _ _ _ Hstep Hp) as [-> _]. done.
  - by apply (superstep_validated _ _ _ _ _ _ Hstep).
  - by apply (superstep_prompt _ _ _ Hstep).
Qed.

Lemma settled_superstep llm c c' :
  settled json_loads llm c → superstep' llm c = Ok c' → settled json_loads llm c'.
Proof.
  intros Hc Hstep. pose proof Hc as [[b Hb] Haction Hresult].
  assert (∀ v, values c' !! "result" = Some v →
            ∃ a, (tool ∈ active c ∨ is_Some (values c !! "result"))
                 ∧ values c !! "next_action" = Some a ∧ destructive a = true) as Hfrom.
  { intros v [Hv|[Htool Hv]]%(superstep_result _ _ _ _ Hstep).
    - destruct Hresult as (a & ? & ?); [by eauto|]. exists a. split_and!; eauto.
    - assert (destructive (dict_get (values c) "next_action" (PStr "finish")) = true) as Hd.
      { apply tool_node_result. by eauto. }
      unfold dict_get in Hd. destruct (values c !! "next_action") as [a|] eqn:Ha; [|done].
      exists a. split_and!; eauto. }
  split.
  - destruct (superstep_validated_bool _ _ _ _ Hstep Hb) as (b' & ? & _). by exists b'.
  - intros Hpre a Ha Hd.
    destruct (decide (planner ∈ active c)) as [Hp|Hp].
    + destruct (superstep_planner_runs _ _ _ Hstep Hp) as (out & a0 & Hout & Ha0 & Ha' & _).
      rewrite Ha' in Ha. simplify_eq.
      assert (validated (values c) = true) as Hv.
      { eapply planner_node_safe; [done|]. unfold dict_get. by rewrite Ha0. }
      assert (b = true) as ->.
      { unfold validated in Hv. rewrite Hb in Hv. done. }
      split; [by apply (superstep_validated _ _ _ _ _ _ Hstep)|].
      intros state out' Hprompt Hout'. rewrite <-Ha0.
      rewrite (superstep_prompt _ _ _ Hstep Hb) in Hprompt.
      by eapply planner_node_same_prompt.
    + destruct (superstep_planner_idle _ _ _ Hstep Hp) as [Hna Hno].
      destruct Hpre as [?|[v Hv]]; [done|].
      destruct (Hfrom v Hv) as (a' & Hpre & Ha' & Hd').
      rewrite Hna, Ha' in Ha. simplify_eq.
      destruct (settled_keep _ _ _ _ Hc Hstep Hpre Ha' Hd) as (_ & ? & Hprompt).
      split; [done|]. intros state out. rewrite Hprompt.
      by apply (Haction Hpre a Ha' Hd).
  - intros [v Hv]. destruct (Hfrom v Hv) as (a & Hpre & Ha & Hd).
    exists a. split; [|done]. by apply (settled_keep _ _ _ _ Hc Hstep Hpre Ha Hd).
Qed.

Lemma invoke_same_replies llm (limit : nat) input b state :
  input !! "result" = None →
  dict_get input "validated" (PBool false) = PBool b →
  invoke' (λ _, llm) limit input = Ok state →
  state !! "result" = None.
Proof.
  intros Hr Hb Hrun.
  assert (state !! "next_action" = Some (PStr "finish")) as Hfin.
  { apply (run_loop_returns _ _ _ _ _ _ _ classify _ Hrun).
    cbn [start active entry_point]. left. }
  destruct (invoke_invariant (settled json_loads llm) (λ _, llm) limit input state)
    as (c & Hc & _ & <-); [|by eapply settled_start|done|].
  { intros _ c1 c2. apply settled_superstep. }
  apply eq_None_not_Some. intros (a & Ha & Hd)%(settled_result _ _ _ Hc).
  rewrite Hfin in Ha. by simplify_eq.
Qed.

(** X12: a gateway that gives the same reply whenever it is given the same
    prompt, in a run from a state without [result] whose [validated] is
    absent or a boolean.  The prompt of the planner shows [user_input] and
    [validated] and nothing else of the state; so once a result is there,
    the state is validated and the planning step decides the same
    destructive action again whenever it runs, the run cannot end on
    [finish], and no state that [invoke] returns has a [result]. *)
Theorem same_replies_complete_nothing llm input b :
  input !! "result" = None →
  dict_get input "validated" (PBool false) = PBool b →
  (∀ (i : nat) c,
     supersteps' (λ _, llm) i 0 (start input) = Ok c →
     is_Some (values c !! "result") →
     validated (values c) = true
     ∧ ∃ a, values c !! "next_action" = Some a ∧ destructive a = true
            ∧ ∀ out, planner_node json_loads llm (values c) = Ok out →
                     out !! "next_action" = Some a)
  ∧ (∀ (limit : nat) state,
       invoke' (λ _, llm) limit input = Ok state → state !! "result" = None).
Proof.
  intros Hr Hb. split.
  - intros i c Hrun Hsome.
    assert (settled json_loads llm c) as Hc.
    { eapply (supersteps_invariant (settled json_loads llm) (λ _, llm));
        [|by eapply settled_start|done].
      intros _ c1 c2. apply settled_superstep. }
    destruct (settled_result _ _ _ Hc Hsome) as (a & Ha & Hd).
    destruct (settled_action _ _ _ Hc (or_intror Hsome) a Ha Hd) as [Hv Hstable].
    split; [done|]. exists a. split_and!; [done..|].
    intros out. by apply Hstable.
  - intros limit state. by eapply invoke_same_replies.
Qed.

End Runs.

(** ** The step budget *)

Section Budget.

Variable json_loads : string → option pyval.
Variable int_of_str : string → option Z.
Variable max_steps : Z.

Implicit Types (llm : gateway) (gw : nat → gateway) (state input out : gmap string pyval).
Implicit Types (c : config).

Local Abbreviation superstep' := (superstep json_loads int_of_str max_steps).
Local Abbreviation supersteps' := (supersteps json_loads int_of_str max_steps).
Local Abbreviation invoke' := (invoke json_loads int_of_str max_steps).
Local Abbreviation route_after_tool' := (route_after_tool int_of_str max_steps).











End Budget.

(** ** The gateway *)

Section Gateway.

Variable json_loads : string → option pyval.
Variable json_dumps : pyval → string.
Variable invoke_model : invocation → result string.
Variable model_id : string.

Local Abbreviation generate' := (generate json_loads json_dumps invoke_model model_id).

Lemma py_strip_empty : py_strip "" = "".
Proof. reflexivity. Qed.

(** X13: [generate] returns a text exactly when the response is a JSON
    object that either has no [results], and then the text is empty, or has
    a list of [results] that begins with an object, and then the text is
    the [outputText] of that object, the empty string when it is missing,
    stripped.  It raises [IndexError] when [results] is the empty list, and
    it raises what the call to the model raises. *)
Theorem generate_reads_first_result (prompt : string) (temperature max_tokens top_p : pyval) :
  let call :=
    Invocation model_id (json_dumps (request_body prompt temperature max_tokens top_p))
      "application/json" "application/json" in
  (∀ text,
     generate' prompt temperature max_tokens top_p = Ok text ↔
     ∃ raw d, invoke_model call = Ok raw ∧ json_loads raw = Some (PDict d) ∧
       ((d !! "results" = None ∧ text = "")
        ∨ ∃ r rest s, d !! "results" = Some (PList (PDict r :: rest)) ∧
                      dict_get r "outputText" (PStr "") = PStr s ∧ text = py_strip s))
  ∧ (∀ raw d, invoke_model call = Ok raw → json_loads raw = Some (PDict d) →
              d !! "results" = Some (PList []) →
              generate' prompt temperature max_tokens top_p = Raise IndexError)
  ∧ (∀ e, invoke_model call = Raise e →
          generate' prompt temperature max_tokens top_p = Raise e).
Proof.
  intros call. unfold generate. fold call. split_and!.
  - intros text. split.
    + destruct (invoke_model call) as [raw|e] eqn:Hcall; bind_simpl; [|done].
      unfold loads. destruct (json_loads raw) as [data|] eqn:Hdata; bind_simpl; [|done].
      destruct data as [| | | | | |d]; cbn [py_get]; bind_simpl; try done.
      unfold dict_get at 1.
      destruct (d !! "results") as [results|] eqn:Hresults.
      * destruct results as [| | | |s|l|d']; cbn [py_first]; bind_simpl; try done.
        -- by destruct s.
        -- destruct l as [|first rest]; bind_simpl; [done|].
           destruct first as [| | | | | |r]; cbn [py_get]; bind_simpl; try done.
           destruct (dict_get r "outputText" (PStr "")) as [| | | |s| |] eqn:Hs;
             cbn [py_strip_method]; try done.
           intros [= <-]. exists raw, d. split_and!; [done..|]. right. by exists r, rest, s.
      * cbn. intros [= <-]. exists raw, d. split_and!; [done..|]. by left.
    + intros (raw & d & -> & Hd & [[Hnone ->]|(r & rest & s & Hres & Hs & ->)]);
        bind_simpl; unfold loads; rewrite Hd; bind_simpl; cbn [py_get]; bind_simpl;
        unfold dict_get at 1.
      * by rewrite Hnone.
      * rewrite Hres. cbn [py_first]. bind_simpl. cbn [py_get]. bind_simpl. by rewrite Hs.
  - intros raw d -> Hd Hres. bind_simpl. unfold loads. rewrite Hd. bind_simpl.
    cbn [py_get]. bind_simpl. unfold dict_get. by rewrite Hres.
  - by intros e ->.
Qed.

End Gateway.

(** ** The application *)

Lemma display_success (state : gmap string pyval) (v : pyval) :
  st_success v ∈ display state ↔ state !! "result" = Some v ∧ py_truthy v = true.
Proof.
  unfold display. cbn zeta. rewrite !elem_of_app. split.
  - intros [Hin|[Hin|Hin]].
    + destruct (py_truthy _); [|by apply elem_of_nil in Hin].
      by apply list_elem_of_singleton in Hin.
    + destruct (py_truthy (dict_get state "result" PNone)) eqn:Ht;
        [|by apply elem_of_nil in Hin].
      apply list_elem_of_singleton in Hin as [= ->]. split; [|done].
      unfold dict_get in *. by destruct (state !! "result").
    + by apply list_elem_of_singleton in Hin.
  - intros [Hv Ht]. right. left. unfold dict_get. rewrite Hv, Ht. left.
Qed.

Section Application.

Variable json_loads : string → option pyval.
Variable int_of_str : string → option Z.
Variable recursion_limit : nat.

Implicit Types (gw : nat → gateway) (state : gmap string pyval).

Local Abbreviation app' := (app json_loads int_of_str recursion_limit).
Local Abbreviation invoke' := (invoke json_loads int_of_str 6).

Lemma app_idle gw state (user_text : string) (button : bool) :
  button && py_truthy (PStr (py_strip user_text)) = false →
  app' gw state user_text button = Rerun state (Ok (display state)).
Proof. unfold app. by intros ->. Qed.

Lemma app_returns gw state (user_text : string) final :
  py_strip user_text ≠ "" →
  invoke' gw recursion_limit (request user_text) = Ok final →
  app' gw state user_text true = Rerun final (Ok (display final)).
Proof.
  intros Htext Hrun. unfold app. fold (request user_text).
  destruct (py_strip user_text) as [|a s] eqn:Hs; [done|]. cbn [andb py_truthy].
  rewrite Hrun. by rewrite (invoke_update _ _ _ _ _ _ _ Hrun).
Qed.

Lemma app_fails gw state (user_text : string) e :
  py_strip user_text ≠ "" →
  invoke' gw recursion_limit (request user_text) = Raise e →
  app' gw state user_text true = Rerun (request user_text) (Raise e).
Proof.
  intros Htext Hrun. unfold app. fold (request user_text).
  destruct (py_strip user_text) as [|a s] eqn:Hs; [done|]. cbn [andb py_truthy].
  by rewrite Hrun.
Qed.

Lemma app_cases gw state (user_text : string) (button : bool) :
  app' gw state user_text button = Rerun state (Ok (display state))
  ∨ (∃ final, invoke' gw recursion_limit (request user_text) = Ok final ∧
              app' gw state user_text button = Rerun final (Ok (display final)))
  ∨ (∃ e, app' gw state user_text button = Rerun (request user_text) (Raise e)).
Proof.
  destruct (button && py_truthy (PStr (py_strip user_text))) eqn:Hcond.
  - apply andb_true_iff in Hcond as [-> Htext]. right.
    assert (py_strip user_text ≠ "") as Hne by (intros Heq; by rewrite Heq in Htext).
    destruct (invoke' gw recursion_limit (request user_text)) as [final|e] eqn:Hrun.
    + left. exists final. split; [done|]. by apply app_returns.
    + right. exists e. by apply app_fails.
  - left. by apply app_idle.
Qed.

(** X14: a run of the script without a click, or with a text of white space
    only, leaves the session state as it was and shows it.  A click with
    any other text replaces the session state, whatever it held: by the
    request alone when the graph fails, and otherwise by the state that the
    graph returns, in which [user_input] is the text as it was typed. *)
Theorem app_replaces_session gw state (user_text : string) (button : bool) :
  (button = false ∨ py_strip user_text = "" →
   app' gw state user_text button = Rerun state (Ok (display state)))
  ∧ (button = true → py_strip user_text ≠ "" →
     (∀ e, invoke' gw recursion_limit (request user_text) = Raise e →
           app' gw state user_text button = Rerun (request user_text) (Raise e))
     ∧ (∀ final, invoke' gw recursion_limit (request user_text) = Ok final →
                 app' gw state user_text button = Rerun final (Ok (display final))
                 ∧ final !! "user_input" = Some (PStr user_text))).
Proof.
  split.
  - intros Hidle. apply app_idle. destruct Hidle as [->| ->]; [done|].
    by rewrite andb_false_r.
  - intros -> Htext. split.
    + intros e. by apply app_fails.
    + intros final Hrun. split; [by apply app_returns|].
      destruct (invoke_keeps _ _ _ _ _ _ _ "user_input" Hrun) as [-> _]; [|done].
      unfold written_keys, node_keys. set_solver.
Qed.

(** X15: when the [result] of the session state, if it has one, is a
    confirmation in a validated state, the same holds of the session state
    that a run of the script leaves, and whatever the page shows as a
    success is such a confirmation. *)
Theorem app_reports_validated_results gw state (user_text : string) (button : bool) :
  completed state →
  let r := app' gw state user_text button in
  completed (session_state r)
  ∧ ∀ widgets v, page r = Ok widgets → st_success v ∈ widgets →
                 confirmation v ∧ validated (session_state r) = true.
Proof.
  intros Hstate r.
  assert (completed (session_state r) ∧
          ∀ widgets, page r = Ok widgets → widgets = display (session_state r)) as [Hc Hpage].
  { subst r.
    destruct (app_cases gw state user_text button) as [->|[(final & Hrun & ->)|[e ->]]];
      cbn [session_state page].
    - split; [done | by intros ? [= <-]].
    - split; [|by intros ? [= <-]]. eapply invoke_completed; [|exact Hrun]. done.
    - split; [|done]. intros v Hv. unfold request in Hv.
      by rewrite lookup_singleton_ne in Hv. }
  split; [done|]. intros widgets v ->%Hpage [Hv _]%display_success. by apply Hc.
Qed.

(** X16: with a gateway that gives the same reply whenever it is given the
    same prompt, a session state without [result] is left without [result]
    by a run of the script, and the page shows no success. *)
Theorem app_same_replies_report_nothing (llm : gateway) state (user_text : string)
    (button : bool) :
  state !! "result" = None →
  let r := app' (λ _, llm) state user_text button in
  session_state r !! "result" = None
  ∧ ∀ widgets v, page r = Ok widgets → st_success v ∉ widgets.
Proof.
  intros Hstate r.
  assert (session_state r !! "result" = None ∧
          ∀ widgets, page r = Ok widgets → widgets = display (session_state r)) as [Hc Hpage].
  { subst r.
    destruct (app_cases (λ _, llm) state user_text button)
      as [->|[(final & Hrun & ->)|[e ->]]]; cbn [session_state page].
    - split; [done | by intros ? [= <-]].
    - split; [|by intros ? [= <-]].
      eapply (invoke_same_replies _ _ _ _ _ _ false); [| |exact Hrun]; done.
    - by split. }
  split; [done|]. intros widgets v ->%Hpage [Hv _]%display_success. by rewrite Hc in Hv.
Qed.

End Application.

(** ** Instances and counterexamples *)

(** A planner that asks for [cancel] at once: the guard turns the decision
    into [validate], and after two supersteps the dispatcher is about to
    run in a state that is not validated. *)
Lemma guard_blocks_witness :
  destructive (dict_get guarded_cancel "next_action" PNone) = false
  ∧ destructive
      (dict_get (guarded_cancel ∪ {[ "intent_reason" := PStr "" ]} ∪ sample_request)
         "next_action" (PStr "finish")) = false
  ∧ tool_node (guarded_cancel ∪ {[ "intent_reason" := PStr "" ]} ∪ sample_request)
      !! "result" = None.
Proof.
  pose proof (guard_blocks_unvalidated_destruction sample_loads sample_int 6) as [Hnode Hrun].
  split.
  - apply (Hnode (always cancel_reply 1) sample_request guarded_cancel);
      [by_items | by_eval].
  - pose proof (Hrun (always cancel_reply) sample_request 2%nat
                  (Config (guarded_cancel ∪ {[ "intent_reason" := PStr "" ]} ∪ sample_request)
                     [tool])) as Hreached.
    cbn [values active] in Hreached. apply Hreached; [by_summary | left | by_eval].
Defined.


Lemma step_count_once_per_dispatch_witness :
  let before : config := Config {[ "next_action" := PStr "validate" ]} [tool] in
  let after : config :=
    Config {[ "validated" := PBool true;
              "validation_reason" := PStr "Mock validation passed.";
              "next_action" := PStr "validate" ]} [planner; step] in
  (step ∈ active after ↔ tool ∈ active before) ∧ step_count_is (values after) 0.
Proof.
  intros before after.
  destruct (step_count_once_per_dispatch sample_loads sample_int 6
              (always validate_reply 2) before after 0) as (Hstep & _ & Hidle & _);
    [by_summary | by_eval |].
  split; [exact Hstep|]. apply Hidle. by intros [=]%list_elem_of_singleton.
Defined.

(** The classifier with the template of prompts.py, on the message
    [hello], whatever the model would answer; and the classifier given a
    reply text. *)
Lemma classifier_raises_past_its_boundary_witness :
  intent_agent sample_loads (rendering_gateway (λ _ _ _ _ _, Ok "") (λ _, Ok chatty_reply))
    (PStr "hello") = Raise KeyError
  ∧ intent_agent sample_loads (always chatty_reply 0) (PStr "hello")
    = Ok {[ "intent" := PStr "unknown"; "intent_reason" := PStr "parse_error" ]}
  ∧ intent_agent sample_loads (always "[]" 0) (PStr "hello")
    = Ok {[ "intent" := PStr "unknown"; "intent_reason" := PStr "parse_error" ]}
  ∧ intent_agent sample_loads (always reason_only_reply 0) (PStr "hello")
    = Ok {[ "intent" := dict_get (as_dict [("reason", "no idea")]) "intent" (PStr "unknown");
            "intent_reason" := dict_get (as_dict [("reason", "no idea")]) "reason" (PStr "") ]}.
Proof.
  assert (unusable (sample_loads chatty_reply)) as Hchatty by (vm_compute; exact I).
  assert (unusable (sample_loads "[]")) as Hlist by (vm_compute; exact I).
  assert (sample_loads reason_only_reply = Some (PDict (as_dict [("reason", "no idea")])))
    as Hobject by by_eval.
  destruct (classifier_raises_past_its_boundary sample_loads) as (Hraises & _ & _ & Hreply).
  split_and!.
  - apply Hraises.
  - exact (proj1 (Hreply (always chatty_reply 0) (PStr "hello") chatty_reply eq_refl) Hchatty).
  - exact (proj1 (Hreply (always "[]" 0) (PStr "hello") "[]" eq_refl) Hlist).
  - exact (proj2 (Hreply (always reason_only_reply 0) (PStr "hello") reason_only_reply
                    eq_refl) _ Hobject).
Defined.

(** The planner with the template of prompts.py, on the state of a
    request, whatever the model would answer; and the planning step given
    a reply that is not JSON. *)
Lemma planner_raises_before_its_fallback_witness :
  planner_agent sample_loads (rendering_gateway (λ _ _ _ _ _, Ok "") (λ _, Ok chatty_reply))
    sample_request = Raise KeyError
  ∧ planner_node sample_loads (always chatty_reply 1) sample_request
    = Ok {[ "next_action" := PStr "finish";
            "assistant_message" := PStr "I'm sorry, I couldn't process that.";
            "plan_reason" := PStr "parse_error" ]}.
Proof.
  assert (sample_loads chatty_reply = None) as Hnone by by_eval.
  destruct (planner_raises_before_its_fallback sample_loads) as (_ & Hraises & _ & Hreply).
  split.
  - exact (proj1 (Hraises (λ _ _ _ _ _, Ok "") (λ _, Ok chatty_reply) sample_request
                    "" "" eq_refl eq_refl)).
  - exact (proj1 (proj2 (Hreply (always chatty_reply 1) sample_request chatty_reply
                           eq_refl Hnone))).
Defined.

Lemma tool_node_dispatch_witness :
  tool_node {[ "next_action" := PStr "cancel" ]}
  = {[ "result" := PStr "ðŸ›‘ Cancellation completed. Your card is now inactive." ]}
  ∧ tool_node {[ "next_action" := PStr "replace" ]}
    = {[ "result" := PStr "âœ… Replacement completed. A new card will arrive in 5â€“7 business days." ]}
  ∧ tool_node {[ "next_action" := PStr "validate" ]}
    = {[ "validated" := PBool true; "validation_reason" := PStr "Mock validation passed." ]}
  ∧ tool_node {[ "next_action" := PStr "finish" ]} = ∅
  ∧ tool_node ∅ = ∅.
Proof.
  split_and!.
  - destruct (tool_node_dispatch {[ "next_action" := PStr "cancel" ]} (PStr "cancel"))
      as (_ & _ & Hcancel & _); [by_eval|].
    by apply Hcancel.
  - destruct (tool_node_dispatch {[ "next_action" := PStr "replace" ]} (PStr "replace"))
      as (_ & Hreplace & _); [by_eval|].
    by apply Hreplace.
  - destruct (tool_node_dispatch {[ "next_action" := PStr "validate" ]} (PStr "validate"))
      as (Hvalidate & _); [by_eval|].
    by apply Hvalidate.
  - destruct (tool_node_dispatch {[ "next_action" := PStr "finish" ]} (PStr "finish"))
      as (_ & _ & _ & _ & Hother & _); [by_eval|].
    apply Hother. by_eval.
  - destruct (tool_node_dispatch ∅ (PStr "finish")) as (_ & _ & _ & _ & Hother & _);
      [by_eval|].
    apply Hother. by_eval.
Defined.



Lemma validated_never_reset_witness :
  (validate_ownership_tool {[ "next_action" := PStr "validate" ]} !! "validated" = None
   ∨ validate_ownership_tool {[ "next_action" := PStr "validate" ]} !! "validated"
     = Some (PBool true))
  ∧ validated (plain_cancel ∪ {[ "validated" := PBool true ]}) = true.
Proof.
  pose proof (validated_never_reset sample_loads sample_int 6) as [Hnode Hrun].
  split.
  - apply (Hnode (always cancel_reply 0) tool {[ "next_action" := PStr "validate" ]}).
    by_items.
  - pose proof (Hrun (always cancel_reply) 1%nat 3%nat
                  (Config {[ "validated" := PBool true ]} [planner])
                  (Config (plain_cancel ∪ {[ "validated" := PBool true ]}) [tool])) as Hkept.
    cbn [values] in Hkept. apply Hkept; [by_summary | by_eval].
Defined.

Lemma planner_keeps_intent_witness :
  let classified : gmap string pyval :=
    {[ "user_input" := PStr "please cancel my card ending 4321";
       "intent" := PStr "cancel" ]} in
  (∃ out, planner_agent sample_loads (always chatty_reply 1) classified = Ok out ∧
          (out ∪ classified) !! "intent" = Some (PStr "cancel"))
  ∧ (∃ out, planner_agent sample_loads (always validate_reply 1) classified = Ok out ∧
            (out ∪ classified) !! "intent" = Some (PStr "cancel")).
Proof.
  intros classified.
  assert (classified !! "intent" = Some (PStr "cancel")) as Hintent by by_eval.
  split.
  - destruct (planner_keeps_intent sample_loads (always chatty_reply 1) classified
                chatty_reply eq_refl) as [(out & Hout & _ & Hkeep) _];
      [vm_compute; exact I|].
    exists out. split; [done|]. rewrite <-Hintent. apply Hkeep. by rewrite Hintent.
  - destruct (planner_keeps_intent sample_loads (always validate_reply 1) classified
                validate_reply eq_refl) as [(out & Hout & _ & Hkeep) _];
      [by_eval|].
    exists out. split; [done|]. rewrite <-Hintent. apply Hkeep. by rewrite Hintent.
Defined.

Lemma run_returns_only_on_finish_witness :
  ({[ "user_input" := PStr "hello";
      "intent" := PStr "unknown";
      "intent_reason" := PStr "";
      "next_action" := PStr "finish";
      "assistant_message" := PStr "Could you clarify?";
      "plan_reason" := PStr "" ]} : gmap string pyval) !! "next_action"
  = Some (PStr "finish").
Proof.
  apply (run_returns_only_on_finish sample_loads sample_int 6 (always finish_reply) 25
           (request "hello")).
  by_items.
Defined.






(** *** Runs with the sample gateways *)

Lemma cancel_then_finish_run :
  invoke sample_loads sample_int 6 cancel_then_finish 25 sample_request = Ok cancelled.
Proof. by_items. Qed.

Lemma validate_then_finish_run :
  invoke sample_loads sample_int 6 (λ _, validate_then finish_reply) 25 sample_request
  = Ok validated_only.
Proof. by_items. Qed.

Lemma validate_then_before (text : string) (state : gmap string pyval) :
  validated state = false →
  ∃ out, planner_node sample_loads (validate_then text) state = Ok out ∧
         out !! "next_action" = Some (PStr "validate").
Proof.
  intros Hv.
  assert (sample_loads validate_reply = Some (PDict validate_plan)) as Hloads by by_eval.
  exists (planner_decision state validate_plan). split.
  - apply planner_node_pass.
    + rewrite (planner_agent_reply _ _ _ validate_reply); [by rewrite Hloads|].
      unfold validate_then, by_validation.
      change (shown_validated (planner_prompt state)) with (validated state).
      by rewrite Hv.
    + unfold planner_decision, dict_get at 1. by rewrite lookup_insert_eq.
  - unfold planner_decision. by rewrite lookup_insert_eq.
Qed.

Lemma validate_then_finish_after (state : gmap string pyval) :
  validated state = true →
  ∃ out, planner_node sample_loads (validate_then finish_reply) state = Ok out ∧
         out !! "next_action" = Some (PStr "finish").
Proof.
  intros Hv.
  assert (sample_loads finish_reply
          = Some (PDict (as_dict [("next_action", "finish");
                                  ("assistant_message", "Could you clarify?")])))
    as Hloads by by_eval.
  eexists. split.
  - apply planner_node_pass.
    + rewrite (planner_agent_reply _ _ _ finish_reply); [by rewrite Hloads|].
      unfold validate_then, by_validation.
      change (shown_validated (planner_prompt state)) with (validated state).
      by rewrite Hv.
    + unfold planner_decision, dict_get at 1. by rewrite lookup_insert_eq.
  - unfold planner_decision. by rewrite lookup_insert_eq.
Qed.

(** The envelope of the model's response: the text of the first result is
    stripped, the other results are not looked at, and an empty list of
    results is an [IndexError]. *)
Example generate_on_envelopes :
  generate
    (λ _, Some (PDict {[ "results" := PList [PDict {[ "outputText" := PStr "  {}  " ]}; PNone] ]}))
    (λ _, "") (λ _, Ok "") "amazon.titan-text-express-v1" "hello" PNone PNone PNone
  = Ok "{}"
  ∧ generate (λ _, Some (PDict {[ "results" := PList [] ]}))
      (λ _, "") (λ _, Ok "") "amazon.titan-text-express-v1" "hello" PNone PNone PNone
    = Raise IndexError
  ∧ generate (λ _, Some (PDict ∅))
      (λ _, "") (λ _, Ok "") "amazon.titan-text-express-v1" "hello" PNone PNone PNone
    = Ok "".
Proof. split_and!; by_eval. Qed.

Lemma result_requires_validation_witness : completed cancelled.
Proof.
  assert (sample_request !! "result" = None) as Hr by by_eval.
  apply (proj2 (result_requires_validation sample_loads sample_int 6 cancel_then_finish
                  sample_request Hr) 25%nat).
  apply cancel_then_finish_run.
Defined.

Lemma run_keeps_other_keys_witness :
  cancelled !! "user_input" = sample_request !! "user_input"
  ∧ cancelled !! "messages" = sample_request !! "messages"
  ∧ dom cancelled ⊆ CardState.
Proof.
  destruct (run_keeps_other_keys sample_loads sample_int 6 cancel_then_finish 25
              sample_request cancelled) as (_ & _ & Hinput & Hmessages & Hschema).
  - unfold sample_request, request. rewrite dom_singleton_L. unfold CardState. set_solver.
  - apply cancel_then_finish_run.
  - split_and!; [exact Hinput | exact Hmessages | exact Hschema].
Defined.

Lemma run_fails_only_by_witness :
  GraphRecursionError = GraphRecursionError
  ∨ (∃ (i : nat) p, always validate_reply i p = Raise GraphRecursionError)
  ∨ (GraphRecursionError = TypeError ∧
     ∃ (i : nat) state out,
       planner_agent sample_loads (always validate_reply i) state = Ok out ∧
       validated state = false ∧ unguardable out).
Proof.
  apply (run_fails_only_by sample_loads sample_int 6 (always validate_reply) 25
           sample_request 0).
  - by_eval.
  - by_eval.
Defined.


Lemma validation_then_finish_returns_witness :
  ∃ state,
    invoke sample_loads sample_int 0 (λ _, validate_then finish_reply) 6 sample_request
    = Ok state
    ∧ state !! "validated" = Some (PBool true)
    ∧ state !! "validation_reason" = Some (PStr "Mock validation passed.")
    ∧ state !! "result" = None
    ∧ state !! "step_count" = Some (PInt 1)
    ∧ state !! "next_action" = Some (PStr "finish").
Proof.
  apply (validation_then_finish_returns sample_loads sample_int 0
           (λ _, validate_then finish_reply) 0 sample_request
           {[ "intent" := PStr "unknown"; "intent_reason" := PStr "" ]}).
  - by_eval.
  - by_eval.
  - by_eval.
  - by_items.
  - intros _ state. apply validate_then_before.
  - intros _ state. apply validate_then_finish_after.
Defined.

Lemma dispatcher_runs_on_planned_action_witness :
  ∃ a, (guarded_cancel ∪ {[ "intent_reason" := PStr "" ]} ∪ sample_request) !! "next_action"
       = Some a ∧ a ≠ PStr "finish".
Proof.
  destruct (dispatcher_runs_on_planned_action sample_loads sample_int 6
              (always cancel_reply) sample_request 2
              (Config (guarded_cancel ∪ {[ "intent_reason" := PStr "" ]} ∪ sample_request)
                 [tool])) as (a & Ha & Hfin & _).
  - by_summary.
  - left.
  - exists a. split; [exact Ha | exact Hfin].
Defined.

Lemma same_replies_complete_nothing_witness : validated_only !! "result" = None.
Proof.
  assert (sample_request !! "result" = None) as Hr by by_eval.
  assert (dict_get sample_request "validated" (PBool false) = PBool false) as Hv by by_eval.
  apply (proj2 (same_replies_complete_nothing sample_loads sample_int 6
                  (validate_then finish_reply) sample_request false Hr Hv) 25%nat).
  apply validate_then_finish_run.
Defined.

Lemma app_reports_validated_results_witness :
  let r := app sample_loads sample_int 25 cancel_then_finish ∅
             "please cancel my card ending 4321" true in
  completed (session_state r)
  ∧ ∀ widgets v, page r = Ok widgets → st_success v ∈ widgets →
                 confirmation v ∧ validated (session_state r) = true.
Proof.
  apply (app_reports_validated_results sample_loads sample_int 25 cancel_then_finish ∅
           "please cancel my card ending 4321" true).
  intros v Hv. vm_compute in Hv. discriminate Hv.
Defined.

Lemma app_same_replies_report_nothing_witness :
  let r := app sample_loads sample_int 25 (λ _, validate_then finish_reply) ∅
             "please cancel my card ending 4321" true in
  session_state r !! "result" = None
  ∧ ∀ widgets v, page r = Ok widgets → st_success v ∉ widgets.
Proof.
  apply (app_same_replies_report_nothing sample_loads sample_int 25
           (validate_then finish_reply) ∅ "please cancel my card ending 4321" true).
  by_eval.
Defined.
